(** * Loandoc-Pro: the analysis-result normaliser and the derived-metrics engine

    A shallow embedding of the computational core of the repository:

    - [services/geminiService.ts] : [analyzeLoanDocument], the mapping of the
      parsed model response into an [AnalysisResult];
    - [components/AnalysisReport.tsx] : [getScoreMeta],
      [getReadinessColorPill], the deal-readiness pill and [calculateSlack].

    JavaScript numbers are IEEE 754 binary64 values.  They are modelled by the
    Standard Library's executable specification of binary floating point
    ([SpecFloat], precision 53, maximal exponent 1024), so subtraction,
    division, multiplication and comparison round and propagate NaN and the
    infinities exactly as the engine does.

    JavaScript strings are modelled by [string]; a character stands for a code
    unit below 256 (the Latin-1 range). *)

From Stdlib Require Import ZArith NArith List String Ascii Bool Lia SpecFloat.
From Stdlib Require Decimal DecimalString.
Import ListNotations.

Local Open Scope string_scope.

(* ================================================================== *)
(** ** JavaScript numbers *)

Module JSNumber.

Definition number : Type := spec_float.

Definition prec : Z := 53.
Definition emax : Z := 1024.

Definition NaN : number := S754_nan.
Definition Infinity : number := S754_infinity false.

(** [x - y], [x / y], [x * y] *)
Definition sub (x y : number) : number := SFsub prec emax x y.
Definition div (x y : number) : number := SFdiv prec emax x y.
Definition mul (x y : number) : number := SFmul prec emax x y.

(** [x >= y] and [x < y]; both are false as soon as an operand is NaN *)
Definition ge (x y : number) : bool := SFleb y x.
Definition lt (x y : number) : bool := SFltb x y.

(** the global [isNaN] on a number *)
Definition isNaN (x : number) : bool :=
  match x with
  | S754_nan => true
  | _ => false
  end.

Definition isInfinite (x : number) : bool :=
  match x with
  | S754_infinity _ => true
  | _ => false
  end.

Definition isZero (x : number) : bool :=
  match x with
  | S754_zero _ => true
  | _ => false
  end.

(** an integer literal of the source, such as [0], [75] or [100] *)
Definition of_Z (z : Z) : number := binary_normalize prec emax z 0 false.

(** The number nearest to [m * 10^e] (ties to even), with the sign [neg]:
    the value a decimal literal denotes, as engines that convert exactly
    (V8, SpiderMonkey, JavaScriptCore) compute it.  A negative exponent
    divides by the power of ten; the quotient of the two integers is rounded
    once. *)
Definition of_decimal (neg : bool) (m : N) (e : Z) : number :=
  match m with
  | N0 => S754_zero neg
  | Npos p =>
      match e with
      | Zneg k => SFdiv prec emax (S754_finite neg p 0)
                                  (S754_finite false (Pos.pow 10 k) 0)
      | Z0 => binary_round prec emax neg p 0
      | Zpos k => binary_round prec emax neg (p * Pos.pow 10 k) 0
      end
  end.

(** ToBoolean on a number: [0], [-0] and NaN are falsy *)
Definition truthy (x : number) : bool :=
  match x with
  | S754_zero _ | S754_nan => false
  | _ => true
  end.

End JSNumber.

(* ================================================================== *)
(** ** JavaScript strings *)

Module JSString.

Definition code (c : ascii) : nat := nat_of_ascii c.

Definition isDigit (c : ascii) : bool :=
  (48 <=? code c)%nat && (code c <=? 57)%nat.

Definition digitValue (c : ascii) : N := N.of_nat (code c - 48).

(** StrWhiteSpaceChar: TAB, LF, VT, FF, CR, SP and NBSP *)
Definition isWhiteSpace (c : ascii) : bool :=
  let n := code c in
  ((9 <=? n)%nat && (n <=? 13)%nat) || (n =? 32)%nat || (n =? 160)%nat.

(** [Character.toLowerCase] on one code unit: A-Z, and the Latin-1
    capitals U+00C0..U+00DE without the multiplication sign U+00D7 *)
Definition lowerChar (c : ascii) : ascii :=
  let n := code c in
  if ((65 <=? n)%nat && (n <=? 90)%nat)
     || ((192 <=? n)%nat && (n <=? 222)%nat && negb (n =? 215)%nat)
  then ascii_of_nat (n + 32)
  else c.

(** [String.prototype.toLowerCase] *)
Fixpoint toLowerCase (s : string) : string :=
  match s with
  | EmptyString => EmptyString
  | String c s' => String (lowerChar c) (toLowerCase s')
  end.

(** [s.startsWith pat] *)
Definition startsWith (s pat : string) : bool := prefix pat s.

(** [String.prototype.includes]: [pat] occurs somewhere in [s] *)
Fixpoint includes (s pat : string) : bool :=
  startsWith s pat ||
  match s with
  | EmptyString => false
  | String _ s' => includes s' pat
  end.

(** removal of leading white space, the TrimString(.., start) of parseFloat *)
Fixpoint trimStart (s : string) : string :=
  match s with
  | EmptyString => EmptyString
  | String c s' => if isWhiteSpace c then trimStart s' else s
  end.

Fixpoint drop (n : nat) (s : string) : string :=
  match n, s with
  | O, _ => s
  | S n', String _ s' => drop n' s'
  | S _, EmptyString => EmptyString
  end.

(** ToBoolean on a string: only the empty string is falsy *)
Definition truthy (s : string) : bool :=
  match s with
  | EmptyString => false
  | _ => true
  end.

End JSString.

(* ================================================================== *)
(** ** The global [parseFloat]

    ECMAScript: trim leading white space, take the longest prefix that is a
    StrDecimalLiteral, return NaN when there is none and the number value of
    the literal otherwise.  Whatever follows the literal is ignored. *)

Module ParseFloat.
Import JSNumber JSString.

(** the literal that was recognised *)
Inductive literal : Type :=
| LitInfinity (neg : bool)
| LitDecimal (neg : bool) (intPart fracPart : list N) (exponent : Z).

(** DecimalDigits: the longest run of digits, and the text after it *)
Fixpoint takeDigits (s : string) : list N * string :=
  match s with
  | EmptyString => ([], EmptyString)
  | String c s' =>
      if isDigit c
      then let (ds, r) := takeDigits s' in (digitValue c :: ds, r)
      else ([], s)
  end.

Definition digitsValue (ds : list N) : N :=
  fold_left (fun acc d => (10 * acc + d)%N) ds 0%N.

(** an optional [+] or [-] *)
Definition scanSign (s : string) : bool * string :=
  match s with
  | String c s' =>
      if (c =? "-")%char then (true, s')
      else if (c =? "+")%char then (false, s')
      else (false, s)
  | EmptyString => (false, s)
  end.

Definition isExponentIndicator (c : ascii) : bool :=
  (c =? "e")%char || (c =? "E")%char.

(** ExponentPart, optional: an indicator that is not followed by a signed
    integer is not part of the literal *)
Definition scanExponent (s : string) : Z * string :=
  match s with
  | String c s1 =>
      if isExponentIndicator c then
        let (neg, s2) := scanSign s1 in
        let (ds, s3) := takeDigits s2 in
        match ds with
        | [] => (0%Z, s)
        | _ => ((if neg then - Z.of_N (digitsValue ds)
                        else Z.of_N (digitsValue ds))%Z, s3)
        end
      else (0%Z, s)
  | EmptyString => (0%Z, s)
  end.

(** the fraction after the integer digits: [. DecimalDigits?] *)
Definition scanFraction (s : string) : list N * string :=
  match s with
  | String c s' => if (c =? ".")%char then takeDigits s' else ([], s)
  | EmptyString => ([], s)
  end.

(** StrUnsignedDecimalLiteral *)
Definition scanUnsigned (neg : bool) (s : string) : option (literal * string) :=
  if startsWith s "Infinity" then Some (LitInfinity neg, drop 8 s)
  else
    let (ip, s1) := takeDigits s in
    let (fp, s2) := scanFraction s1 in
    match ip, fp with
    | [], [] => None
    | _, _ =>
        let (ex, s3) := scanExponent s2 in
        Some (LitDecimal neg ip fp ex, s3)
    end.

(** StrDecimalLiteral: the literal and the text left over *)
Definition scan (s : string) : option (literal * string) :=
  let (neg, s') := scanSign s in scanUnsigned neg s'.

(** the mathematical value of the literal, rounded to a number *)
Definition literalValue (l : literal) : number :=
  match l with
  | LitInfinity neg => S754_infinity neg
  | LitDecimal neg ip fp ex =>
      of_decimal neg (digitsValue (ip ++ fp)%list) (ex - Z.of_nat (List.length fp))
  end.

Definition parseFloat (s : string) : number :=
  match scan (trimStart s) with
  | None => NaN
  | Some (l, _) => literalValue l
  end.

End ParseFloat.

(* ================================================================== *)
(** ** JavaScript values, as [JSON.parse] and object literals produce them *)

Module JSValue.
Import JSNumber.

(** An object is the list of its own properties; a property that was never
    set reads as [VUndefined]. *)
#[warnings="-register-all"] Inductive value : Type :=
| VUndefined
| VNull
| VBool (b : bool)
| VNumber (n : number)
| VString (s : string)
| VArray (items : list value)
| VObject (props : list (string * value)).

(** what a [throw] carries *)
Inductive exception : Type :=
| TypeError
| SyntaxError
| Error (message : string).

(** the completion of an expression: a value, or an exception on its way to
    the nearest [catch] *)
Inductive completion (A : Type) : Type :=
| Normal (a : A)
| Throw (e : exception).
Arguments Normal {A} a.
Arguments Throw {A} e.

Definition bind {A B : Type} (c : completion A) (k : A -> completion B)
  : completion B :=
  match c with
  | Normal a => k a
  | Throw e => Throw e
  end.

(** [xs.map(f)] where [f] may throw: left to right, the first exception
    abandons the whole call *)
Fixpoint mapM {A B : Type} (f : A -> completion B) (xs : list A)
  : completion (list B) :=
  match xs with
  | [] => Normal []
  | x :: xs' =>
      bind (f x) (fun y => bind (mapM f xs') (fun ys => Normal (y :: ys)))
  end.

Fixpoint lookup (k : string) (props : list (string * value)) : value :=
  match props with
  | [] => VUndefined
  | (k', v) :: rest => if String.eqb k k' then v else lookup k rest
  end.

(** [v.k] for the property names this program reads ([overview],
    [clauses], [clause_name], [status], ...), none of which is defined on
    a prototype: reading from [undefined] or [null] throws a TypeError, a
    primitive or an array has no such property. *)
Definition get (v : value) (k : string) : completion value :=
  match v with
  | VUndefined | VNull => Throw TypeError
  | VObject props => Normal (lookup k props)
  | VBool _ | VNumber _ | VString _ | VArray _ => Normal VUndefined
  end.

(** the same read where it cannot throw: [VUndefined] on anything that is
    not an object *)
Definition field (v : value) (k : string) : value :=
  match v with
  | VObject props => lookup k props
  | _ => VUndefined
  end.

Definition isNullish (v : value) : bool :=
  match v with
  | VUndefined | VNull => true
  | _ => false
  end.

(** ToBoolean *)
Definition truthy (v : value) : bool :=
  match v with
  | VUndefined | VNull => false
  | VBool b => b
  | VNumber n => JSNumber.truthy n
  | VString s => JSString.truthy s
  | VArray _ | VObject _ => true
  end.

(** [a || b] *)
Definition or_else (a b : value) : value := if truthy a then a else b.

End JSValue.

Declare Scope js_scope.
Delimit Scope js_scope with js.
Notation "x <- c ;; k" := (JSValue.bind c (fun x => k))
  (at level 61, c at next level, right associativity) : js_scope.

(* ================================================================== *)
(** ** types.ts

    The interfaces are erased at run time: a field holds whatever value the
    response carried, so the fields are [value]s. *)

Module Types.
Import JSValue.

Record LmaComparison : Type := {
  standardBenchmark : value;
  deviations : value;
  impact : value
}.

Record ClauseAnalysis : Type := {
  name : value;
  summary : value;
  confidenceScore : value;
  reviewRequired : value;
  reason : value;
  lmaComparison : LmaComparison
}.

Record RiskAssessment : Type := {
  overallRating : value;
  riskSummary : value     (* [summary] of the RiskAssessment interface *)
}.

Record AnalysisResult : Type := {
  overview : value;
  confidenceAnalysis : list ClauseAnalysis;
  riskAssessment : RiskAssessment;
  commercialSummary : value;
  dealReadiness : value;
  rawText : string
}.

End Types.

(* ================================================================== *)
(** ** services/geminiService.ts *)

Module GeminiService.
Import JSValue Types.
Local Open Scope js_scope.

(** the callback of [data.clauses.map] *)
Definition mapClause (c : value) : completion ClauseAnalysis :=
  clause_name <- get c "clause_name" ;;
  extracted_text <- get c "extracted_text" ;;
  confidence_score <- get c "confidence_score" ;;
  review_required <- get c "review_required" ;;
  explanation <- get c "explanation" ;;
  lma_benchmark_context <- get c "lma_benchmark_context" ;;
  market_deviation <- get c "market_deviation" ;;
  potential_impact <- get c "potential_impact" ;;
  Normal {|
    name := clause_name;
    summary := extracted_text;
    confidenceScore := confidence_score;
    reviewRequired := review_required;
    reason := explanation;
    lmaComparison := {|
      standardBenchmark :=
        or_else lma_benchmark_context (VString "Market standard position.");
      deviations := market_deviation;
      impact :=
        or_else potential_impact
                (VString "Review required for specific commercial impact.")
    |}
  |}.

(** [v.map(f)]: only an array has a callable [map]; a JSON value holds no
    function, so on everything else the call throws a TypeError *)
Definition arrayMap {B : Type} (v : value) (f : value -> completion B)
  : completion (list B) :=
  match v with
  | VArray items => mapM f items
  | _ => Throw TypeError
  end.

(** the object literal returned inside the [try], fields in source order *)
Definition normalize (data : value) (text : string)
  : completion AnalysisResult :=
  data_overview <- get data "overview" ;;
  data_clauses <- get data "clauses" ;;
  clauses <- arrayMap data_clauses mapClause ;;
  data_riskAssessment <- get data "riskAssessment" ;;
  rating <- get data_riskAssessment "overallRating" ;;
  data_riskAssessment' <- get data "riskAssessment" ;;
  risk_summary <- get data_riskAssessment' "summary" ;;
  data_commercialSummary <- get data "commercialSummary" ;;
  data_dealReadiness <- get data "dealReadiness" ;;
  Normal {|
    overview := data_overview;
    confidenceAnalysis := clauses;
    riskAssessment := {|
      overallRating := or_else rating (VString "Medium");
      riskSummary := risk_summary
    |};
    commercialSummary := data_commercialSummary;
    dealReadiness := data_dealReadiness;
    rawText := text
  |}.

(** how the promise of [analyzeLoanDocument] settles *)
Inductive outcome : Type :=
| Resolved (result : AnalysisResult)
| Rejected (e : exception).

Definition failureMessage : string :=
  "Failed to analyze document. The institutional logic engine encountered an error.".

(** [analyzeLoanDocument(text)].  [parsed] is the completion of the request
    to the model followed by [JSON.parse(response.text || '{}')], the part
    that belongs to the external collaborator.  The [catch] replaces every
    exception by one [Error] with a fixed message.  The client is
    constructed on the line before the [try]: this definition is the
    function from the [try] on, and [analyzeLoanDocumentCall] adds the
    construction. *)
Definition analyzeLoanDocument (parsed : completion value) (text : string)
  : outcome :=
  match (data <- parsed ;; normalize data text) with
  | Normal result => Resolved result
  | Throw _ => Rejected (Error failureMessage)
  end.

End GeminiService.

(* ================================================================== *)
(** ** components/AnalysisReport.tsx *)

Module AnalysisReport.
Import JSNumber JSString ParseFloat JSValue Types.

(** *** [getScoreMeta] and [getReadinessColorPill] *)

Record ScoreMeta : Type := {
  label : string;
  text : string;
  bg : string;
  border : string;
  accent : string
}.

Definition getScoreMeta (score : number) : ScoreMeta :=
  if ge score (of_Z 85) then
    {| label := "High Confidence";
       text := "text-emerald-700";
       bg := "bg-emerald-50";
       border := "border-emerald-100";
       accent := "border-emerald-500" |}
  else if ge score (of_Z 70) then
    {| label := "Moderate Review";
       text := "text-amber-700";
       bg := "bg-amber-50";
       border := "border-amber-100";
       accent := "border-amber-500" |}
  else
    {| label := "Critical / Low Confidence";
       text := "text-rose-700";
       bg := "bg-rose-50";
       border := "border-rose-100";
       accent := "border-rose-500" |}.

Definition getReadinessColorPill (score : number) : string :=
  if ge score (of_Z 85)
  then "text-emerald-600 bg-white border-emerald-300 shadow-sm"
  else if ge score (of_Z 70)
  then "text-amber-600 bg-white border-amber-300 shadow-sm"
  else "text-rose-600 bg-white border-rose-300 shadow-sm".

(** *** [calculateSlack] *)

Record Slack : Type := {
  slack : number;
  percentage : number;
  isSafe : bool;
  isMax : bool
}.

Definition calculateSlack (limitStr actualStr name : string) : option Slack :=
  let limit := parseFloat limitStr in
  let actual := parseFloat actualStr in
  if isNaN limit || isNaN actual then None
  else
    let isMax := includes (toLowerCase name) "leverage"
                 || includes (toLowerCase name) "debt" in
    let slack := if isMax then sub limit actual else sub actual limit in
    let percentage := if isMax then mul (div slack limit) (of_Z 100)
                      else mul (div slack actual) (of_Z 100) in
    Some {| slack := slack;
            percentage := percentage;
            isSafe := ge slack (of_Z 0);
            isMax := isMax |}.

(** *** The deal-readiness pill

    [{result.dealReadiness.status}]: the text shown next to the score is
    read from the result. *)
Definition readinessStatusShown (result : AnalysisResult) : completion value :=
  get (dealReadiness result) "status".

End AnalysisReport.

(* ================================================================== *)
(** ** The rules of the specification

    Definitions that follow the words of the specification, kept apart from
    the program so that the two can be compared. *)

Module Spec.
Import JSNumber JSValue Types AnalysisReport.

(** the severity band of the specification, read off the colour family of
    the meta record: emerald, amber or rose *)
Inductive band : Type := high | moderate | critical.

Definition severityBand (m : ScoreMeta) : option band :=
  if String.eqb (accent m) "border-emerald-500" then Some high
  else if String.eqb (accent m) "border-amber-500" then Some moderate
  else if String.eqb (accent m) "border-rose-500" then Some critical
  else None.

(** "marketDeviation is Aggressive / Non-Standard" *)
Definition isAggressive (deviation : value) : bool :=
  match deviation with
  | VString s =>
      String.eqb s "Aggressive" || String.eqb s "Non-Standard"
      || String.eqb s "Aggressive/Non-Standard"
  | _ => false
  end.

(** "confidenceScore < 75 OR marketDeviation is Aggressive/Non-Standard" *)
Definition reviewRule (c : ClauseAnalysis) : bool :=
  match confidenceScore c with
  | VNumber n => lt n (of_Z 75)
  | _ => false
  end
  || isAggressive (deviations (lmaComparison c)).

(** the three-tier readiness rule: 85 and above, 70 to 84, below 70 *)
Definition classifyReadiness (score : value) : string :=
  match score with
  | VNumber n =>
      if ge n (of_Z 85) then "Execution Ready"
      else if ge n (of_Z 70) then "Ready with Review"
      else "Not Execution Ready"
  | _ => "Not Execution Ready"
  end.

(** the closed enumeration of [overallRating] *)
Definition isRating (v : value) : bool :=
  match v with
  | VString s => String.eqb s "Low" || String.eqb s "Medium" || String.eqb s "High"
  | _ => false
  end.

(** the required top-level sections of the payload *)
Definition requiredSections : list string :=
  ["overview"; "clauses"; "dealReadiness"; "riskAssessment"; "commercialSummary"].

End Spec.

(* ================================================================== *)
(** ** Sample payloads *)

Module Samples.
Import JSNumber JSValue.

Definition overviewSection : value :=
  VObject [("facilityType", VString "Term Loan");
           ("borrowerLender", VString "Acme / First Bank");
           ("currency", VString "GBP");
           ("amount", VString "50,000,000");
           ("maturity", VString "2030");
           ("law", VString "English law")].

Definition clause (score : Z) (deviation : string) (review : bool) : value :=
  VObject [("clause_name", VString "Financial Covenants");
           ("extracted_text", VString "Leverage shall not exceed 3.5x.");
           ("confidence_score", VNumber (of_Z score));
           ("market_deviation", VString deviation);
           ("review_required", VBool review);
           ("explanation", VString "Clear drafting.")].

Definition readinessSection (score : Z) (status : string) : value :=
  VObject [("score", VNumber (of_Z score));
           ("status", VString status);
           ("driversPositive", VArray [VString "Clear covenants"]);
           ("driversNegative", VArray []);
           ("keyIssues", VArray []);
           ("recommendedActions", VArray [VString "Proceed"])].

Definition riskSection (rating : string) : value :=
  VObject [("overallRating", VString rating);
           ("summary", VString "Contained.")].

Definition commercialSection : value :=
  VObject [("snapshot", VString "Senior term facility.");
           ("highlights", VArray []);
           ("risks", VArray []);
           ("nextActions", VArray [])].

Definition payload (clauses : list value) (readiness risk : value) : value :=
  VObject [("overview", overviewSection);
           ("clauses", VArray clauses);
           ("dealReadiness", readiness);
           ("riskAssessment", risk);
           ("commercialSummary", commercialSection)].

(** a payload that carries every section but [dealReadiness] *)
Definition payloadWithoutReadiness : value :=
  VObject [("overview", overviewSection);
           ("clauses", VArray [clause 90 "Standard" false]);
           ("riskAssessment", riskSection "Low");
           ("commercialSummary", commercialSection)].

Definition document : string := "THIS AGREEMENT is dated 1 March 2025 ...".

(** every section present, every field of the expected type *)
Definition wellFormed : value :=
  payload [clause 90 "Standard" false]
          (readinessSection 88 "Execution Ready") (riskSection "Low").

(** one clause scored 60, market-standard, not flagged by the model *)
Definition lowConfidence : value :=
  payload [clause 60 "Standard" false]
          (readinessSection 88 "Execution Ready") (riskSection "Low").

(** score 90 with the status of the top tier, and with that of the lowest *)
Definition labelled : value :=
  payload [] (readinessSection 90 "Execution Ready") (riskSection "Low").
Definition mislabelled : value :=
  payload [] (readinessSection 90 "Not Execution Ready") (riskSection "Low").

(** a rating outside Low / Medium / High *)
Definition unrecognisedRating : value :=
  payload [] (readinessSection 88 "Execution Ready") (riskSection "Critical").

End Samples.

Import JSNumber JSString ParseFloat JSValue Types GeminiService AnalysisReport Spec.

(* ================================================================== *)
(** ** Vocabulary of the statements *)

Module Shape.
Import JSValue.

(** what a payload must look like for the object literal to be built: a
    [clauses] array without [null] entries and a [riskAssessment] that can
    be read from *)
Definition accepted (data : value) : Prop :=
  (exists raw, field data "clauses" = VArray raw
               /\ existsb isNullish raw = false)
  /\ isNullish (field data "riskAssessment") = false.

(** [w] occurs in [s] when the case of letters is ignored *)
Definition containsIgnoringCase (s w : string) : Prop :=
  exists pre mid post,
    s = pre ++ mid ++ post /\ JSString.toLowerCase mid = w.

(** a character a numeric literal can start with *)
Definition canStartNumber (c : ascii) : bool :=
  JSString.isDigit c || (c =? ".")%char || (c =? "+")%char
  || (c =? "-")%char || (c =? "I")%char.

(** text with nothing numeric at its start: empty or blank, or its first
    character after the white space cannot start a number *)
Definition nonNumericText (s : string) : bool :=
  match JSString.trimStart s with
  | EmptyString => true
  | String c _ => negb (canStartNumber c)
  end.

End Shape.

Import Shape.

(* ================================================================== *)
(** ** Decimal numerals

    The numerals [parseFloat] reads (StrDecimalLiteral without [Infinity]),
    given by their parts and stated apart from the scanner: the text of a
    numeral is the concatenation of the texts of its parts, and its value is
    read off its digits.  A sequence of digits is a [Decimal.uint] of the
    Standard Library, written by [string_of_uint] and valued by
    [N.of_uint]. *)

Module Numeral.
Import JSNumber.

Inductive sign : Type := Unsigned | Plus | Minus.

Definition signText (s : sign) : string :=
  match s with
  | Unsigned => ""
  | Plus => "+"
  | Minus => "-"
  end.

Definition isMinus (s : sign) : bool :=
  match s with
  | Minus => true
  | _ => false
  end.

(** the exponent part: [e] or [E], a sign, digits *)
Record exponentPart : Type := {
  capital : bool;
  exponentSign : sign;
  exponentDigits : Decimal.uint
}.

Record numeral : Type := {
  numeralSign : sign;
  whole : Decimal.uint;         (* the digits before the point *)
  point : bool;                 (* whether a point is written *)
  fraction : Decimal.uint;      (* the digits after the point *)
  exponent : option exponentPart
}.

Definition isNil (d : Decimal.uint) : bool :=
  match d with
  | Decimal.Nil => true
  | _ => false
  end.

(** the forms of the grammar: digits; digits, a point and maybe digits; a
    point and digits.  An exponent part has at least one digit. *)
Definition wellFormed (n : numeral) : bool :=
  (negb (isNil (whole n)) || (point n && negb (isNil (fraction n))))
  && (point n || isNil (fraction n))
  && match exponent n with
     | Some e => negb (isNil (exponentDigits e))
     | None => true
     end.

Definition digitsText (d : Decimal.uint) : string :=
  DecimalString.NilEmpty.string_of_uint d.

Definition exponentText (e : option exponentPart) : string :=
  match e with
  | None => ""
  | Some e =>
      (if capital e then "E" else "e")
      ++ signText (exponentSign e) ++ digitsText (exponentDigits e)
  end.

(** the numeral as it is written *)
Definition render (n : numeral) : string :=
  signText (numeralSign n)
  ++ digitsText (whole n)
  ++ (if point n then "." ++ digitsText (fraction n) else "")
  ++ exponentText (exponent n).

Definition exponentValue (e : option exponentPart) : Z :=
  match e with
  | None => 0%Z
  | Some e =>
      if isMinus (exponentSign e)
      then (- Z.of_N (N.of_uint (exponentDigits e)))%Z
      else Z.of_N (N.of_uint (exponentDigits e))
  end.

(** the integer that the digits before and after the point write together *)
Definition significand (n : numeral) : N :=
  (N.of_uint (whole n) * 10 ^ N.of_nat (Decimal.nb_digits (fraction n))
   + N.of_uint (fraction n))%N.

(** the number the numeral denotes: the significand scaled by the power of
    ten of the exponent less the number of fraction digits, rounded to the
    nearest number *)
Definition denotation (n : numeral) : number :=
  of_decimal (isMinus (numeralSign n)) (significand n)
             (exponentValue (exponent n)
              - Z.of_nat (Decimal.nb_digits (fraction n))).


(** *** What may follow a numeral *)

Definition digitChars : list ascii :=
  ["0"; "1"; "2"; "3"; "4"; "5"; "6"; "7"; "8"; "9"]%char.

Definition isDigitChar (c : ascii) : bool := existsb (Ascii.eqb c) digitChars.

Definition digitStart (t : string) : bool :=
  match t with
  | String c _ => isDigitChar c
  | EmptyString => false
  end.

(** the text after an optional sign *)
Definition afterSign (t : string) : string :=
  match t with
  | String c r => if (c =? "+")%char || (c =? "-")%char then r else t
  | EmptyString => t
  end.

(** the start of an exponent part: [e] or [E], maybe a sign, a digit *)
Definition exponentStart (t : string) : bool :=
  match t with
  | String c r => ((c =? "e")%char || (c =? "E")%char) && digitStart (afterSign r)
  | EmptyString => false
  end.

(** the start of a fraction, or of an exponent part after a bare point *)
Definition pointStart (t : string) : bool :=
  match t with
  | String c r => (c =? ".")%char && (digitStart r || exponentStart r)
  | EmptyString => false
  end.

(** text [t] written after the numeral [n] continues it: a digit always
    does; an exponent part does when [n] has none; a point followed by a
    digit or by an exponent part does when [n] has neither point nor
    exponent.  Any other text is trailing text. *)
Definition continues (n : numeral) (t : string) : bool :=
  digitStart t
  || match exponent n with
     | Some _ => false
     | None => exponentStart t || (negb (point n) && pointStart t)
     end.

(** *** Text that starts with a numeric literal *)





(** *** Sample numerals: 3.5 and 2.1 *)

Definition threePointFive : numeral :=
  {| numeralSign := Unsigned;
     whole := Decimal.D3 Decimal.Nil;
     point := true;
     fraction := Decimal.D5 Decimal.Nil;
     exponent := None |}.

Definition twoPointOne : numeral :=
  {| numeralSign := Unsigned;
     whole := Decimal.D2 Decimal.Nil;
     point := true;
     fraction := Decimal.D1 Decimal.Nil;
     exponent := None |}.

End Numeral.

(* ================================================================== *)
(** ** More of [String.prototype] and [Array.prototype] *)

Module JSText.
Import JSString.

(** the characters the program tests for or writes *)
Definition dquote : ascii := "034"%char.
Definition newline : ascii := "010"%char.
Definition comma : ascii := ","%char.
Definition dot : ascii := "."%char.

Fixpoint reverse (s : string) : string :=
  match s with
  | EmptyString => EmptyString
  | String c s' => reverse s' ++ String c EmptyString
  end.

(** [String.prototype.trim]: white space removed at both ends *)
Definition trimEnd (s : string) : string := reverse (trimStart (reverse s)).
Definition trim (s : string) : string := trimEnd (trimStart s).

(** [s.replace] with the global pattern of one double quote and the
    replacement of two: every double quote is doubled *)
Fixpoint doubleQuotes (s : string) : string :=
  match s with
  | EmptyString => EmptyString
  | String c s' =>
      if (c =? dquote)%char
      then String dquote (String dquote (doubleQuotes s'))
      else String c (doubleQuotes s')
  end.

(** [s.split(sep)] for a one-character separator: never the empty array *)
Fixpoint split (sep : ascii) (s : string) : list string :=
  match s with
  | EmptyString => [EmptyString]
  | String c s' =>
      if (c =? sep)%char then EmptyString :: split sep s'
      else match split sep s' with
           | seg :: rest => String c seg :: rest
           | [] => [String c EmptyString]
           end
  end.

(** [xs.join(sep)] on strings *)
Fixpoint join (sep : string) (xs : list string) : string :=
  match xs with
  | [] => EmptyString
  | [x] => x
  | x :: rest => x ++ sep ++ join sep rest
  end.

(** [xs.slice(0, n)] *)
Definition slice0 {A : Type} (n : nat) (xs : list A) : list A := firstn n xs.

End JSText.

(** [xs.filter(p)] where [p] may throw, and optional chaining *)
Module JSArray.
Import JSValue.
Local Open Scope js_scope.

Fixpoint filterM {A : Type} (p : A -> completion bool) (xs : list A)
  : completion (list A) :=
  match xs with
  | [] => Normal []
  | x :: xs' =>
      keep <- p x ;;
      rest <- filterM p xs' ;;
      Normal (if keep then x :: rest else rest)
  end.

(** [v?.k]: [undefined] when [v] is [undefined] or [null] *)
Definition optionalGet (v : value) (k : string) : value :=
  if isNullish v then VUndefined else field v k.

(** [v?.[0]]: the first element of an array, the first character of a
    string, the property [0] of an object *)
Definition optionalFirst (v : value) : value :=
  match v with
  | VArray (x :: _) => x
  | VString (String c _) => VString (String c EmptyString)
  | VObject props => lookup "0" props
  | _ => VUndefined
  end.

End JSArray.

(* ================================================================== *)
(** ** components/AnalysisReport.tsx, continued *)

Module Report.
Import JSNumber JSString JSText JSArray ParseFloat JSValue Types AnalysisReport.
Local Open Scope js_scope.

(** *** [financialCovenants] *)

(** [c.name.toLowerCase().includes(w)]: only a string has [toLowerCase] *)
Definition nameIncludes (c : ClauseAnalysis) (w : string) : completion bool :=
  match name c with
  | VString s => Normal (includes (toLowerCase s) w)
  | _ => Throw TypeError
  end.

(** the predicate of the filter; [||] evaluates its right operand only when
    the left one is false *)
Definition isCovenantName (c : ClauseAnalysis) : completion bool :=
  a <- nameIncludes c "covenant" ;;
  if a then Normal true
  else b <- nameIncludes c "leverage" ;;
       if b then Normal true else nameIncludes c "ratio".

Definition financialCovenants (result : AnalysisResult)
  : completion (list ClauseAnalysis) :=
  filterM isCovenantName (confidenceAnalysis result).

(** *** The overview grid

    The six cells of the grid read [result.overview.facilityType] and its
    siblings while the report renders; [overviewGrid] is the array of
    label and value the grid maps over. *)
Definition overviewCells : list (string * string) :=
  [("Facility Type", "facilityType");
   ("Counterparties", "borrowerLender");
   ("Currency", "currency");
   ("Committed Amount", "amount");
   ("Maturity Profile", "maturity");
   ("Jurisdiction", "law")].

Definition overviewGrid (result : AnalysisResult)
  : completion (list (string * value)) :=
  mapM (fun cell => v <- get (overview result) (snd cell) ;;
                    Normal (fst cell, v))
       overviewCells.

(** *** The deal-readiness ring

    [score >= 85 ? 'text-emerald-500' : score >= 70 ? 'text-amber-500'
    : 'text-rose-500'] *)
Definition readinessRingColor (score : number) : string :=
  if ge score (of_Z 85) then "text-emerald-500"
  else if ge score (of_Z 70) then "text-amber-500"
  else "text-rose-500".

(** *** The slack bar

    [Math.max] and [Math.min] of two numbers: NaN when an operand is NaN,
    and [+0] is larger than [-0]. *)
Definition mathMax (a b : number) : number :=
  if isNaN a || isNaN b then NaN
  else if lt a b then b
  else if lt b a then a
  else match a, b with
       | S754_zero true, S754_zero false => b
       | _, _ => a
       end.

Definition mathMin (a b : number) : number :=
  if isNaN a || isNaN b then NaN
  else if lt a b then a
  else if lt b a then b
  else match a, b with
       | S754_zero false, S754_zero true => b
       | _, _ => a
       end.

(** [Math.min(100, Math.max(0, calculation.percentage))], the width of the
    bar in percent *)
Definition slackBarWidth (calculation : Slack) : number :=
  mathMin (of_Z 100) (mathMax (of_Z 0) (percentage calculation)).

(** *** [handleExportCSV] *)

Definition headers : list string :=
  ["Clause Name"; "Confidence Score (%)"; "Review Required";
   "Provision Summary"; "Audit Logic"; "Market Standard Context";
   "Deviation Analysis"; "Counterparty Impact"].

(** the template that wraps [v.replace(..)] in double quotes; only a string
    has [replace] *)
Definition quoted (v : value) : completion string :=
  match v with
  | VString s =>
      Normal (String dquote (doubleQuotes s ++ String dquote EmptyString))
  | _ => Throw TypeError
  end.

(** one cell of a row before [join] turns it into text *)
Inductive cell : Type :=
| Text (s : string)        (* a string built by the handler *)
| Raw (v : value).         (* [clause.confidenceScore], as it is *)

Definition csvRow (clause : ClauseAnalysis) : completion (list cell) :=
  c_name <- quoted (name clause) ;;
  c_summary <- quoted (summary clause) ;;
  c_reason <- quoted (reason clause) ;;
  c_benchmark <-
    quoted (or_else (standardBenchmark (lmaComparison clause))
                    (VString EmptyString)) ;;
  c_deviations <-
    quoted (or_else (deviations (lmaComparison clause))
                    (VString EmptyString)) ;;
  c_impact <-
    quoted (or_else (impact (lmaComparison clause)) (VString EmptyString)) ;;
  Normal [Text c_name;
          Raw (confidenceScore clause);
          Text (if truthy (reviewRequired clause) then "YES" else "NO");
          Text c_summary; Text c_reason;
          Text c_benchmark; Text c_deviations; Text c_impact].

(** *** The sources of a grounded answer

    The same extraction is written twice: in [handleFetchNews] here and in
    [fetchMarketIntelligence] of the service. *)

Record Source : Type := {
  title : value;
  uri : value
}.

(** [response.candidates?.[0]?.groundingMetadata?.groundingChunks || []] *)
Definition groundingChunks (response : value) : completion value :=
  candidates <- get response "candidates" ;;
  Normal (or_else
            (optionalGet
               (optionalGet (optionalFirst candidates) "groundingMetadata")
               "groundingChunks")
            (VArray [])).

(** the callbacks of [filter] and [map] *)
Definition hasWeb (chunk : value) : completion bool :=
  web <- get chunk "web" ;;
  Normal (truthy web).

Definition toSource (chunk : value) : completion Source :=
  web <- get chunk "web" ;;
  web_title <- get web "title" ;;
  web' <- get chunk "web" ;;
  web_uri <- get web' "uri" ;;
  Normal {| title := or_else web_title (VString "Source"); uri := web_uri |}.

(** [chunks.filter(..).map(..)]: only an array has [filter] *)
Definition sourcesOf (chunks : value) : completion (list Source) :=
  match chunks with
  | VArray items =>
      kept <- filterM hasWeb items ;;
      mapM toSource kept
  | _ => Throw TypeError
  end.

Record MarketNews : Type := {
  summary : value;
  sources : list Source
}.

(** *** [handleFetchNews]

    The state the handler writes; [response] is the completion of the
    construction of the client followed by the request.  The prompt reads [result.overview.facilityType] before the
    request is made; every exception ends in the [catch], which only logs. *)
Record NewsState : Type := {
  isFetchingNews : bool;
  newsData : option MarketNews;
  isNewsCollapsed : bool
}.

Section Builtins.

(** ToString, the conversion a template literal and [Array.prototype.join]
    apply to a value: the engine's Number::toString on a number, the string
    itself on a string.  On an object it can throw. *)
Variable toText : value -> completion string.

(** [join] turns a cell into text: nothing for [undefined] and [null],
    ToString otherwise *)
Definition cellText (c : cell) : completion string :=
  match c with
  | Text s => Normal s
  | Raw v => if isNullish v then Normal EmptyString else toText v
  end.

(** [r.join(",")] *)
Definition joinRow (r : list cell) : completion string :=
  texts <- mapM cellText r ;;
  Normal (join "," texts).

(** the text handed to the [Blob]: [csvContent] *)
Definition csvContent (result : AnalysisResult) : completion string :=
  rows <- mapM csvRow (confidenceAnalysis result) ;;
  lines <- mapM joinRow rows ;;
  Normal (join (String newline EmptyString) (join "," headers :: lines)).

Definition fetchNews (result : AnalysisResult) (response : completion value)
  : completion MarketNews :=
  facilityType <- get (overview result) "facilityType" ;;
  prompt_part <- toText facilityType ;;
  r <- response ;;
  text <- get r "text" ;;
  chunks <- groundingChunks r ;;
  found <- sourcesOf chunks ;;
  Normal {| summary := or_else text (VString "No intelligence found.");
            sources := found |}.

Definition handleFetchNews (result : AnalysisResult)
    (response : completion value) (st : NewsState) : NewsState :=
  match fetchNews result response with
  | Normal news =>
      {| isFetchingNews := false; newsData := Some news;
         isNewsCollapsed := false |}
  | Throw _ =>
      {| isFetchingNews := false; newsData := newsData st;
         isNewsCollapsed := isNewsCollapsed st |}
  end.

End Builtins.

End Report.

(* ================================================================== *)
(** ** services/geminiService.ts, continued *)

Module MarketService.
Import JSValue JSArray Report.
Local Open Scope js_scope.

Definition defaultQuery : string :=
  "latest news and trends in the syndicated loan market and LMA standards 2024-2025".

(** [query || default]: a missing or empty query asks for the default *)
Definition finalQuery (query : option string) : string :=
  match query with
  | Some q => if JSString.truthy q then q else defaultQuery
  | None => defaultQuery
  end.

(** the [contents] of the request *)
Definition marketPrompt (query : option string) : string :=
  "Provide a high-level professional summary for loan documentation analysts of: "
  ++ finalQuery query
  ++ ". Focus on regulatory changes, interest rate trends, and documentation standards.".

(** [fetchMarketIntelligence]: what the promise settles to, given the
    completion of the construction of the client followed by the request.
    Nothing is caught here. *)
Definition fetchMarketIntelligence (response : completion value)
  : completion MarketNews :=
  r <- response ;;
  chunks <- groundingChunks r ;;
  found <- sourcesOf chunks ;;
  text <- get r "text" ;;
  Normal {| summary := text; sources := found |}.

(** [analyzeLoanDocument(text)] as its caller sees it.  The first line of
    the function constructs the client, before the [try]: [client] is the
    completion of [new GoogleGenAI(..)], a constructor of the @google/genai
    package.  An exception of the constructor rejects the promise as it is;
    the [catch] cannot replace it by the fixed message. *)
Definition analyzeLoanDocumentCall (client : completion unit)
    (parsed : completion value) (text : string) : GeminiService.outcome :=
  match client with
  | Normal _ => GeminiService.analyzeLoanDocument parsed text
  | Throw e => GeminiService.Rejected e
  end.

End MarketService.

(* ================================================================== *)
(** ** App.tsx *)

Module App.
Import JSString JSText JSValue Types GeminiService Report MarketService.
Local Open Scope js_scope.

Record State : Type := {
  inputText : string;
  isLoading : bool;
  result : option AnalysisResult;
  error : option string;
  fileName : option string;
  marketIntel : option MarketNews;
  isIntelLoading : bool
}.

Section Engine.

(** the [message] of an exception the engine raises itself *)
Variable engineMessage : exception -> string.

Definition messageOf (e : exception) : string :=
  match e with
  | Error m => m
  | _ => engineMessage e
  end.

(** [handleAnalyze], from the click to the state after [finally] *)
Definition handleAnalyze (client : completion unit) (parsed : completion value)
    (st : State) : State :=
  if negb (JSString.truthy (trim (inputText st))) then st
  else
    match analyzeLoanDocumentCall client parsed (inputText st) with
    | Resolved analysis =>
        {| inputText := inputText st; isLoading := false;
           result := Some analysis; error := None;
           fileName := fileName st; marketIntel := marketIntel st;
           isIntelLoading := isIntelLoading st |}
    | Rejected err =>
        {| inputText := inputText st; isLoading := false;
           result := result st;
           error := Some (if JSString.truthy (messageOf err) then messageOf err
                          else "Institutional API connection failed.");
           fileName := fileName st; marketIntel := marketIntel st;
           isIntelLoading := isIntelLoading st |}
    end.

End Engine.

(** [loadMarketPulse]: a failed fetch is logged and leaves the panel as it
    was *)
Definition loadMarketPulse (response : completion value) (st : State) : State :=
  match fetchMarketIntelligence response with
  | Normal data =>
      {| inputText := inputText st; isLoading := isLoading st;
         result := result st; error := error st; fileName := fileName st;
         marketIntel := Some data; isIntelLoading := false |}
  | Throw _ =>
      {| inputText := inputText st; isLoading := isLoading st;
         result := result st; error := error st; fileName := fileName st;
         marketIntel := marketIntel st; isIntelLoading := false |}
  end.

(** the paragraphs of the Market Pulse panel:
    [summary.split(newline).filter(p => p.trim()).slice(0, 6)] *)
Definition pulseParagraphs (intel : MarketNews) : completion (list string) :=
  match summary intel with
  | VString s =>
      Normal (slice0 6 (filter (fun p => JSString.truthy (trim p))
                               (split newline s)))
  | _ => Throw TypeError
  end.

(** [sources.slice(0, 4)] *)
Definition pulseSources (intel : MarketNews) : list Source :=
  slice0 4 (sources intel).

(** [file.name.split('.').pop()?.toLowerCase()] *)
Definition extensionOf (fileName : string) : string :=
  toLowerCase (last (split dot fileName) EmptyString).

(** the branch of [processFile]: the Word converter or [file.text()] *)
Definition isDocx (fileName : string) : bool :=
  String.eqb (extensionOf fileName) "docx".

End App.

(* ================================================================== *)
(** ** A reference reader for comma-separated text

    Not part of the repository: the reading rule of RFC 4180, against which
    the text written by [handleExportCSV] is checked.  A field is quoted or
    plain; inside quotes a doubled quote stands for one quote and commas and
    line feeds are data; a quote inside a plain field, or text after a
    closing quote, is an error. *)

Module Rfc4180.
Import JSText.

Inductive mode : Type := FieldStart | Unquoted | Quoted | QuoteSeen.

Fixpoint read (m : mode) (field : string) (row : list string)
    (rows : list (list string)) (s : string) : option (list (list string)) :=
  match s with
  | EmptyString =>
      match m with
      | Quoted => None
      | _ => Some (rows ++ [row ++ [field]])%list
      end
  | String c s' =>
      match m with
      | Quoted =>
          if (c =? dquote)%char then read QuoteSeen field row rows s'
          else read Quoted (field ++ String c EmptyString) row rows s'
      | QuoteSeen =>
          if (c =? dquote)%char
          then read Quoted (field ++ String dquote EmptyString) row rows s'
          else if (c =? comma)%char
          then read FieldStart EmptyString (row ++ [field])%list rows s'
          else if (c =? newline)%char
          then read FieldStart EmptyString [] (rows ++ [row ++ [field]])%list s'
          else None
      | FieldStart | Unquoted =>
          if (c =? dquote)%char
          then match m with
               | FieldStart => read Quoted EmptyString row rows s'
               | _ => None
               end
          else if (c =? comma)%char
          then read FieldStart EmptyString (row ++ [field])%list rows s'
          else if (c =? newline)%char
          then read FieldStart EmptyString [] (rows ++ [row ++ [field]])%list s'
          else read Unquoted (field ++ String c EmptyString) row rows s'
      end
  end.

Definition parse (s : string) : option (list (list string)) :=
  read FieldStart EmptyString [] [] s.

End Rfc4180.

(* ================================================================== *)
(** ** Vocabulary of the further statements *)

Module Shape2.
Import JSNumber JSString JSText JSValue Types AnalysisReport Report.

(** a clause name the covenant filter selects *)
Definition covenantText (s : string) : Prop :=
  containsIgnoringCase s "covenant" \/ containsIgnoringCase s "leverage"
  \/ containsIgnoringCase s "ratio".

Definition hasStringName (c : ClauseAnalysis) : Prop :=
  exists s, name c = VString s.

(** the colour family a class name belongs to *)
Inductive colour : Type := rose | amber | emerald.

Definition colourOf (className : string) : option colour :=
  if includes className "emerald" then Some emerald
  else if includes className "amber" then Some amber
  else if includes className "rose" then Some rose
  else None.

Definition rank (c : option colour) : nat :=
  match c with
  | Some emerald => 2
  | Some amber => 1
  | _ => 0
  end.

(** text free of the three characters that structure comma-separated text *)
Fixpoint plain (s : string) : bool :=
  match s with
  | EmptyString => true
  | String c s' =>
      negb ((c =? dquote)%char || (c =? comma)%char || (c =? newline)%char)
      && plain s'
  end.

(** the string a value is, when it is one *)
Definition textOf (v : value) : string :=
  match v with
  | VString s => s
  | _ => EmptyString
  end.

Definition isString (v : value) : bool :=
  match v with
  | VString _ => true
  | _ => false
  end.

(** white space only, the empty text included *)
Definition blank (s : string) : bool :=
  match trimStart s with
  | EmptyString => true
  | _ => false
  end.

(** what may follow a field: the end of the text, a comma or a line feed *)
Definition delimited (rest : string) : Prop :=
  rest = EmptyString
  \/ exists r, rest = String comma r \/ rest = String newline r.

(** a field as it is written, and the text it stands for *)
Definition quotedText (s : string) : string :=
  String dquote (doubleQuotes s ++ String dquote EmptyString).

Definition encodes (written text : string) : Prop :=
  (plain written = true /\ text = written) \/ written = quotedText text.

(** the texts of the eight columns of a clause, [score] being the text of
    its confidence score *)
Definition exportedRow (clause : ClauseAnalysis) (score : string) : list string :=
  [textOf (name clause);
   score;
   if truthy (reviewRequired clause) then "YES" else "NO";
   textOf (Types.summary clause);
   textOf (reason clause);
   textOf (standardBenchmark (lmaComparison clause));
   textOf (deviations (lmaComparison clause));
   textOf (impact (lmaComparison clause))].

(** a value [v] for which [(v || empty).replace] is defined: falsy, or a
    string *)
Definition replaceable (v : value) : bool := negb (truthy v) || isString v.

(** a clause [handleExportCSV] can write: the three texts are strings, the
    three benchmark fields are strings or falsy, and the score has a text *)
Definition exportable (toText : value -> completion string)
    (clause : ClauseAnalysis) : Prop :=
  isString (name clause) = true
  /\ isString (Types.summary clause) = true
  /\ isString (reason clause) = true
  /\ replaceable (standardBenchmark (lmaComparison clause)) = true
  /\ replaceable (deviations (lmaComparison clause)) = true
  /\ replaceable (impact (lmaComparison clause)) = true
  /\ exists t, cellText toText (Raw (confidenceScore clause)) = Normal t.

(** a number whose mantissa and exponent are in canonical form *)
Definition canonical (x : number) : bool :=
  match x with
  | S754_finite _ m e => canonical_mantissa prec emax m e
  | _ => true
  end.

(** text without a dot *)
Fixpoint noDot (s : string) : bool :=
  match s with
  | EmptyString => true
  | String c s' => negb (c =? dot)%char && noDot s'
  end.

(** [ext] is what follows the last dot of [fileName], or the whole name when
    it has no dot *)
Definition afterLastDot (fileName ext : string) : Prop :=
  noDot ext = true
  /\ (fileName = ext \/ exists base, fileName = base ++ String dot ext).

End Shape2.

(* ================================================================== *)
(** ** Sample results and responses *)

Module Samples2.
Import JSNumber JSText JSValue Types Report.

Definition clauseNamed (clauseName : value) (text : string) : ClauseAnalysis :=
  {| name := clauseName;
     Types.summary := VString text;
     confidenceScore := VNumber (of_Z 90);
     reviewRequired := VBool false;
     reason := VString "Clear drafting.";
     lmaComparison :=
       {| standardBenchmark := VString "Market standard position.";
          deviations := VString "Standard";
          impact := VString "Review required for specific commercial impact." |} |}.

Definition resultOf (clauses : list ClauseAnalysis) : AnalysisResult :=
  {| overview := Samples.overviewSection;
     confidenceAnalysis := clauses;
     riskAssessment := {| overallRating := VString "Low";
                          riskSummary := VString "Contained." |};
     commercialSummary := Samples.commercialSection;
     dealReadiness := Samples.readinessSection 88 "Execution Ready";
     rawText := Samples.document |}.

(** four clauses with string names; the second text holds a quote, a comma
    and a line feed *)
Definition audit : AnalysisResult :=
  resultOf
    [clauseNamed (VString "Financial Covenants") "Leverage shall not exceed 3.5x.";
     clauseNamed (VString "Governing Law")
       (String dquote
          ("English law" ++ String dquote (", exclusively" ++ String newline "courts of England")));
     clauseNamed (VString "Net Debt Cap") "Net debt below 100m.";
     clauseNamed (VString "LEVERAGE RATIO") "As tested quarterly."].

(** a clause whose name is missing *)
Definition unnamed : AnalysisResult :=
  resultOf [clauseNamed (VString "Financial Covenants") "Leverage 3.5x.";
            clauseNamed VUndefined "Unlabelled provision."].

(** a stand-in for ToString: strings as they are, every number as "90" *)
Definition scoreText (v : value) : completion string :=
  match v with
  | VString s => Normal s
  | VNumber _ => Normal "90"
  | _ => Throw TypeError
  end.

(** a payload with one clause that has no [clause_name], and one without
    [overview] *)
Definition payloadUnnamedClause : value :=
  Samples.payload [VObject [("extracted_text", VString "Unlabelled provision.")]]
                  (Samples.readinessSection 88 "Execution Ready")
                  (Samples.riskSection "Low").

Definition payloadWithoutOverview : value :=
  VObject [("clauses", VArray []);
           ("riskAssessment", Samples.riskSection "Low")].

(** the start page with a document typed in, and the report while the
    news is being fetched *)
Definition typed : App.State :=
  {| App.inputText := Samples.document; App.isLoading := false;
     App.result := None; App.error := None; App.fileName := None;
     App.marketIntel := None; App.isIntelLoading := false |}.

Definition fetching : NewsState :=
  {| isFetchingNews := true; newsData := None; isNewsCollapsed := true |}.

End Samples2.

(* ================================================================== *)
(** * Properties of the normaliser *)

Section Normaliser.

Local Open Scope js_scope.

(** the clause record built from a clause entry that is not [null] *)
Lemma mapClause_normal (c : value) :
  isNullish c = false ->
  mapClause c = Normal {|
    name := field c "clause_name";
    summary := field c "extracted_text";
    confidenceScore := field c "confidence_score";
    reviewRequired := field c "review_required";
    reason := field c "explanation";
    lmaComparison := {|
      standardBenchmark :=
        or_else (field c "lma_benchmark_context")
                (VString "Market standard position.");
      deviations := field c "market_deviation";
      impact :=
        or_else (field c "potential_impact")
                (VString "Review required for specific commercial impact.")
    |}
  |}.
Proof.
  destruct c; simpl; intros H; try discriminate H; reflexivity.
Qed.

Lemma mapClause_nullish (c : value) :
  isNullish c = true -> mapClause c = Throw TypeError.
Proof.
  destruct c; simpl; intros H; try discriminate H; reflexivity.
Qed.

(** the map over the clauses succeeds exactly when no entry is [null] *)
Lemma mapM_mapClause_normal (raw : list value) :
  existsb isNullish raw = false ->
  exists cas, mapM mapClause raw = Normal cas
              /\ Forall2 (fun c ca => mapClause c = Normal ca) raw cas.
Proof.
  induction raw as [|c raw IH]; simpl; intros H.
  - exists []. split; [reflexivity | constructor].
  - apply orb_false_iff in H. destruct H as [Hc Hraw].
    destruct (IH Hraw) as (cas & Hm & Hall).
    pose proof (mapClause_normal c Hc) as Hcl.
    rewrite Hcl. simpl. rewrite Hm. simpl.
    eexists. split; [reflexivity|].
    constructor; [exact Hcl | exact Hall].
Qed.

Lemma mapM_mapClause_throw (raw : list value) :
  existsb isNullish raw = true ->
  mapM mapClause raw = Throw TypeError.
Proof.
  induction raw as [|c raw IH]; simpl; intros H; [discriminate H|].
  destruct (isNullish c) eqn:Hc.
  - rewrite (mapClause_nullish c Hc). reflexivity.
  - simpl in H. rewrite (mapClause_normal c Hc). simpl.
    rewrite (IH H). reflexivity.
Qed.

Lemma normalize_inv (data : value) (text : string) (r : AnalysisResult) :
  normalize data text = Normal r ->
  exists raw cas,
    field data "clauses" = VArray raw
    /\ existsb isNullish raw = false
    /\ Forall2 (fun c ca => mapClause c = Normal ca) raw cas
    /\ isNullish (field data "riskAssessment") = false
    /\ r = {| overview := field data "overview";
              confidenceAnalysis := cas;
              riskAssessment := {|
                overallRating :=
                  or_else (field (field data "riskAssessment") "overallRating")
                          (VString "Medium");
                riskSummary := field (field data "riskAssessment") "summary"
              |};
              commercialSummary := field data "commercialSummary";
              dealReadiness := field data "dealReadiness";
              rawText := text |}.
Proof.
  unfold normalize.
  destruct data as [ | | b | n | s | items | props]; simpl;
    try discriminate.
  destruct (lookup "clauses" props) as [ | | b | n | s | raw | ps] eqn:Hcl;
    simpl; try discriminate.
  destruct (existsb isNullish raw) eqn:Hex.
  - rewrite (mapM_mapClause_throw raw Hex). simpl. discriminate.
  - destruct (mapM_mapClause_normal raw Hex) as (cas & Hm & Hall).
    rewrite Hm. simpl.
    destruct (lookup "riskAssessment" props) as [ | | b | n | s | its | ps];
      simpl; try discriminate;
      intros H; injection H as <-;
      exists raw, cas; repeat split; auto.
Qed.

Lemma normalize_accepted (data : value) (text : string) :
  accepted data -> exists r, normalize data text = Normal r.
Proof.
  intros ((raw & Hcl & Hex) & Hra).
  unfold normalize.
  destruct data as [ | | b | n | s | items | props]; simpl in *;
    try discriminate.
  rewrite Hcl. simpl.
  destruct (mapM_mapClause_normal raw Hex) as (cas & Hm & _).
  rewrite Hm. simpl.
  destruct (lookup "riskAssessment" props); simpl in *;
    try discriminate; eexists; reflexivity.
Qed.

Lemma analyze_resolved_inv (data : value) (text : string) (r : AnalysisResult) :
  analyzeLoanDocument (Normal data) text = Resolved r ->
  normalize data text = Normal r.
Proof.
  unfold analyzeLoanDocument. simpl.
  destruct (normalize data text); intros H; [injection H as ->; reflexivity | discriminate H].
Qed.

Lemma analyze_outcome (data : value) (text : string) :
  analyzeLoanDocument (Normal data) text = Rejected (Error failureMessage)
  \/ exists r, analyzeLoanDocument (Normal data) text = Resolved r.
Proof.
  unfold analyzeLoanDocument. simpl.
  destruct (normalize data text); [right; eexists; reflexivity | left; reflexivity].
Qed.

Lemma accepted_iff_resolved (data : value) (text : string) :
  accepted data <-> exists r, analyzeLoanDocument (Normal data) text = Resolved r.
Proof.
  split.
  - intros Ha. destruct (normalize_accepted data text Ha) as (r & Hr).
    exists r. unfold analyzeLoanDocument. simpl. rewrite Hr. reflexivity.
  - intros (r & Hr). apply analyze_resolved_inv in Hr.
    destruct (normalize_inv _ _ _ Hr) as (raw & cas & Hcl & Hex & _ & Hra & _).
    split; [exists raw; split; assumption | assumption].
Qed.

Lemma mapClause_reviewRequired (c : value) (ca : ClauseAnalysis) :
  mapClause c = Normal ca -> reviewRequired ca = field c "review_required".
Proof.
  destruct c; simpl; intros H; try discriminate H;
    injection H as <-; reflexivity.
Qed.

End Normaliser.

(** C9.  Whenever [analyzeLoanDocument] produces a result, its [rawText] is
    the document text that was passed in, character for character. *)
Theorem rawText_verbatim (data : value) (text : string) (r : AnalysisResult) :
  analyzeLoanDocument (Normal data) text = Resolved r ->
  rawText r = text.
Proof.
  intros H. apply analyze_resolved_inv in H.
  destruct (normalize_inv _ _ _ H) as (raw & cas & _ & _ & _ & _ & ->).
  reflexivity.
Qed.

Lemma rawText_verbatim_witness :
  exists r,
    analyzeLoanDocument
      (Normal Samples.wellFormed)
      Samples.document = Resolved r
    /\ rawText r = Samples.document.
Proof.
  eexists. split.
  - reflexivity.
  - apply (rawText_verbatim Samples.wellFormed Samples.document). reflexivity.
Defined.

(** C1 (as the code has it).  Every clause of the result carries, as
    [reviewRequired], the [review_required] value of the raw clause it was
    built from: the flag is copied, not recomputed. *)
Theorem reviewRequired_copied (data : value) (text : string) (r : AnalysisResult) :
  analyzeLoanDocument (Normal data) text = Resolved r ->
  exists raw,
    field data "clauses" = VArray raw
    /\ Forall2 (fun c ca => reviewRequired ca = field c "review_required")
               raw (confidenceAnalysis r).
Proof.
  intros H. apply analyze_resolved_inv in H.
  destruct (normalize_inv _ _ _ H) as (raw & cas & Hcl & _ & Hall & _ & ->).
  exists raw. split; [exact Hcl|]. simpl.
  revert Hall. apply Forall2_impl. exact mapClause_reviewRequired.
Qed.

Lemma reviewRequired_copied_witness :
  exists r raw,
    analyzeLoanDocument
      (Normal Samples.lowConfidence)
      Samples.document = Resolved r
    /\ field Samples.lowConfidence "clauses" = VArray raw
    /\ Forall2 (fun c ca => reviewRequired ca = field c "review_required")
               raw (confidenceAnalysis r).
Proof.
  eexists.
  destruct (reviewRequired_copied
              Samples.lowConfidence
              Samples.document _ eq_refl) as (raw & Hraw & Hall).
  exists raw. split; [reflexivity|]. split; assumption.
Defined.

(** C1, refuted as stated.  A raw clause with [confidence_score = 60],
    [market_deviation = "Standard"] and [review_required = false] normalises
    to [reviewRequired = false], although the score is below 75. *)
Lemma reviewRequired_not_recomputed :
  exists r c,
    analyzeLoanDocument
      (Normal Samples.lowConfidence)
      Samples.document = Resolved r
    /\ confidenceAnalysis r = [c]
    /\ confidenceScore c = VNumber (JSNumber.of_Z 60)
    /\ deviations (lmaComparison c) = VString "Standard"
    /\ reviewRequired c = VBool false
    /\ Spec.reviewRule c = true.
Proof.
  eexists. eexists.
  split; [reflexivity|].
  split; [reflexivity|].
  repeat split.
Qed.

(** C2 (as the code has it).  [dealReadiness] is the object of the payload,
    unchanged; the status the report shows is the status that was supplied. *)
Theorem dealReadiness_passed_through
    (data : value) (text : string) (r : AnalysisResult) :
  analyzeLoanDocument (Normal data) text = Resolved r ->
  dealReadiness r = field data "dealReadiness"
  /\ (isNullish (dealReadiness r) = false ->
      readinessStatusShown r
      = Normal (field (field data "dealReadiness") "status")).
Proof.
  intros H. apply analyze_resolved_inv in H.
  destruct (normalize_inv _ _ _ H) as (raw & cas & _ & _ & _ & _ & ->).
  simpl. split; [reflexivity|].
  unfold readinessStatusShown. simpl.
  destruct (field data "dealReadiness"); simpl; intros Hn;
    try discriminate Hn; reflexivity.
Qed.

Lemma dealReadiness_passed_through_witness :
  exists r,
    analyzeLoanDocument
      (Normal Samples.mislabelled)
      Samples.document = Resolved r
    /\ readinessStatusShown r = Normal (VString "Not Execution Ready").
Proof.
  eexists. split; [reflexivity|].
  apply (dealReadiness_passed_through
           Samples.mislabelled
           Samples.document _ eq_refl).
  reflexivity.
Defined.

(** C2, refuted as stated.  Two payloads with the same score 90 and different
    status strings give results with different statuses, and one of them is
    not the status of the three-tier rule. *)
Lemma status_not_function_of_score :
  exists r1 r2,
    analyzeLoanDocument
      (Normal Samples.labelled)
      Samples.document = Resolved r1
    /\ analyzeLoanDocument
      (Normal Samples.mislabelled)
      Samples.document = Resolved r2
    /\ field (dealReadiness r1) "score" = field (dealReadiness r2) "score"
    /\ field (dealReadiness r1) "status" <> field (dealReadiness r2) "status"
    /\ readinessStatusShown r2 = Normal (VString "Not Execution Ready")
    /\ Spec.classifyReadiness (field (dealReadiness r2) "score") = "Execution Ready".
Proof.
  eexists. eexists.
  split; [reflexivity|].
  split; [reflexivity|].
  split; [reflexivity|].
  split; [simpl; discriminate|].
  split; reflexivity.
Qed.

(** C3 (as the code has it).  [analyzeLoanDocument] rejects, with its one
    fixed [Error] and without any result, exactly when the payload has no
    [clauses] array, or a clause entry is [null], or [riskAssessment] is
    absent or [null].  When it resolves, [overview], [commercialSummary] and
    [dealReadiness] are whatever the payload held, [undefined] included. *)
Theorem normalize_failure_cases (data : value) (text : string) :
  (analyzeLoanDocument (Normal data) text = Rejected (Error failureMessage)
   <-> ((forall raw, field data "clauses" <> VArray raw)
        \/ (exists raw, field data "clauses" = VArray raw
                        /\ existsb isNullish raw = true)
        \/ isNullish (field data "riskAssessment") = true))
  /\ (forall r, analyzeLoanDocument (Normal data) text = Resolved r ->
        overview r = field data "overview"
        /\ commercialSummary r = field data "commercialSummary"
        /\ dealReadiness r = field data "dealReadiness").
Proof.
  split.
  - split.
    + intros Hrej.
      destruct (field data "clauses") as [ | | b | n | s | raw | ps] eqn:Hcl;
        try (left; intros raw'; discriminate).
      destruct (existsb isNullish raw) eqn:Hex;
        [right; left; exists raw; split; [reflexivity | exact Hex] |].
      destruct (isNullish (field data "riskAssessment")) eqn:Hra;
        [right; right; reflexivity |].
      assert (Ha : accepted data).
      { split; [exists raw; split; assumption | exact Hra]. }
      apply (accepted_iff_resolved data text) in Ha.
      destruct Ha as (r & Hr). rewrite Hr in Hrej. discriminate Hrej.
    + intros Hcond.
      destruct (analyze_outcome data text) as [Hrej | Hres]; [exact Hrej|].
      apply (accepted_iff_resolved data text) in Hres.
      destruct Hres as ((raw & Hcl & Hex) & Hra).
      destruct Hcond as [Hno | [(raw' & Hcl' & Hex') | Hra']].
      * exfalso. exact (Hno raw Hcl).
      * rewrite Hcl in Hcl'. injection Hcl' as <-.
        rewrite Hex in Hex'. discriminate Hex'.
      * rewrite Hra in Hra'. discriminate Hra'.
  - intros r H. apply analyze_resolved_inv in H.
    destruct (normalize_inv _ _ _ H) as (raw & cas & _ & _ & _ & _ & ->).
    repeat split.
Qed.

Lemma normalize_failure_cases_witness :
  analyzeLoanDocument (Normal (VObject [("overview", Samples.overviewSection)]))
                      Samples.document
  = Rejected (Error failureMessage)
  /\ exists r,
       analyzeLoanDocument (Normal Samples.payloadWithoutReadiness)
                           Samples.document = Resolved r
       /\ dealReadiness r = VUndefined.
Proof.
  split.
  - apply (normalize_failure_cases (VObject [("overview", Samples.overviewSection)])
                                   Samples.document).
    left. intros raw. discriminate.
  - eexists. split; [reflexivity|].
    apply (normalize_failure_cases Samples.payloadWithoutReadiness
                                   Samples.document).
    reflexivity.
Defined.

(** C3, refuted as stated.  A payload without [dealReadiness], a required
    section, is not rejected: a result is produced whose [dealReadiness] is
    [undefined]. *)
Lemma missing_dealReadiness_not_rejected :
  In "dealReadiness" Spec.requiredSections
  /\ field Samples.payloadWithoutReadiness "dealReadiness" = VUndefined
  /\ exists r,
       analyzeLoanDocument (Normal Samples.payloadWithoutReadiness)
                           Samples.document = Resolved r
       /\ dealReadiness r = VUndefined.
Proof.
  split; [simpl; tauto|].
  split; [reflexivity|].
  eexists. split; reflexivity.
Qed.

(** C6 (as the code has it).  [overallRating] is replaced by "Medium"
    exactly when the supplied value is falsy: missing, [null], [false], a
    zero, NaN or the empty string.  Every other value is kept as supplied;
    a non-empty string in particular, whether it is one of Low / Medium /
    High or not. *)
Theorem overallRating_default (data : value) (text : string) (r : AnalysisResult) :
  analyzeLoanDocument (Normal data) text = Resolved r ->
  let supplied := field (field data "riskAssessment") "overallRating" in
  let falsy :=
    supplied = VUndefined \/ supplied = VNull \/ supplied = VBool false
    \/ (exists n, supplied = VNumber n /\ (isZero n = true \/ isNaN n = true))
    \/ supplied = VString "" in
  (falsy -> overallRating (riskAssessment r) = VString "Medium")
  /\ (~ falsy -> overallRating (riskAssessment r) = supplied)
  /\ (forall s, supplied = VString s -> s <> "" ->
      overallRating (riskAssessment r) = VString s).
Proof.
  intros H. apply analyze_resolved_inv in H.
  destruct (normalize_inv _ _ _ H) as (raw & cas & _ & _ & _ & _ & ->).
  cbn [overallRating riskAssessment]. cbv zeta.
  set (supplied := field (field data "riskAssessment") "overallRating").
  split; [|split].
  - intros [-> | [-> | [-> | [(n & -> & Hn) | ->]]]]; try reflexivity.
    unfold or_else. simpl.
    destruct n; destruct Hn as [Hn | Hn]; try discriminate Hn; reflexivity.
  - intros Hnot. unfold or_else.
    destruct supplied as [ | | [|] | n | s | items | props]; simpl;
      try reflexivity;
      try (contradiction Hnot; tauto).
    + destruct n as [sz | si | | sf m e]; simpl; try reflexivity.
      * contradiction Hnot. right. right. right. left.
        eexists. split; [reflexivity | left; reflexivity].
      * contradiction Hnot. right. right. right. left.
        eexists. split; [reflexivity | right; reflexivity].
    + destruct s; [|reflexivity].
      contradiction Hnot. tauto.
  - intros s -> Hs. destruct s; [contradiction Hs; reflexivity | reflexivity].
Qed.

Lemma overallRating_default_witness :
  (exists r,
     analyzeLoanDocument
       (Normal (Samples.payload [] (Samples.readinessSection 88 "Execution Ready")
                  (VObject [("summary", VString "Contained.")])))
       Samples.document = Resolved r
     /\ overallRating (riskAssessment r) = VString "Medium")
  /\ (exists r,
        analyzeLoanDocument
          (Normal (Samples.payload [] (Samples.readinessSection 88 "Execution Ready")
                     (VObject [("overallRating", VBool false);
                               ("summary", VString "Contained.")])))
          Samples.document = Resolved r
        /\ overallRating (riskAssessment r) = VString "Medium").
Proof.
  split.
  - eexists. split; [reflexivity|].
    apply (proj1 (overallRating_default
             (Samples.payload [] (Samples.readinessSection 88 "Execution Ready")
                (VObject [("summary", VString "Contained.")]))
             Samples.document _ eq_refl)).
    left. reflexivity.
  - eexists. split; [reflexivity|].
    apply (proj1 (overallRating_default
             (Samples.payload [] (Samples.readinessSection 88 "Execution Ready")
                (VObject [("overallRating", VBool false);
                          ("summary", VString "Contained.")]))
             Samples.document _ eq_refl)).
    right. right. left. reflexivity.
Defined.

(** C6, refuted as stated.  The rating "Critical" is outside the enumeration
    and is not replaced by "Medium". *)
Lemma unrecognised_rating_kept :
  Spec.isRating (VString "Critical") = false
  /\ field (field Samples.unrecognisedRating "riskAssessment") "overallRating"
     = VString "Critical"
  /\ exists r,
       analyzeLoanDocument (Normal Samples.unrecognisedRating) Samples.document
       = Resolved r
       /\ overallRating (riskAssessment r) = VString "Critical"
       /\ overallRating (riskAssessment r) <> VString "Medium".
Proof.
  split; [reflexivity|].
  split; [reflexivity|].
  eexists. split; [reflexivity|].
  split; [reflexivity | simpl; discriminate].
Qed.

(* ================================================================== *)
(** * Properties of the string operations *)

Section Strings.

Lemma append_empty_r (s : string) : s ++ "" = s.
Proof. induction s as [|c s IH]; simpl; [reflexivity | rewrite IH; reflexivity]. Qed.

Lemma append_assoc (a b c : string) : (a ++ b) ++ c = a ++ (b ++ c).
Proof. induction a as [|x a IH]; simpl; [reflexivity | rewrite IH; reflexivity]. Qed.

Lemma prefix_app (p r : string) : prefix p (p ++ r) = true.
Proof.
  induction p as [|c p IH]; simpl; [destruct r; reflexivity|].
  destruct (ascii_dec c c) as [_ | Hn]; [exact IH | contradiction Hn; reflexivity].
Qed.

Lemma prefix_cons (a b : ascii) (p s : string) :
  prefix (String a p) (String b s)
  = if ascii_dec a b then prefix p s else false.
Proof. reflexivity. Qed.

Lemma prefix_inv (p s : string) :
  prefix p s = true -> exists r, s = p ++ r.
Proof.
  revert s. induction p as [|c p IH]; intros s H.
  - exists s. reflexivity.
  - destruct s as [|d s]; simpl in H; [discriminate H|].
    destruct (ascii_dec c d) as [-> | _]; [|discriminate H].
    destruct (IH s H) as (r & ->). exists r. reflexivity.
Qed.

Lemma includes_unfold (s pat : string) :
  includes s pat
  = startsWith s pat
    || match s with
       | EmptyString => false
       | String _ s' => includes s' pat
       end.
Proof. destruct s; reflexivity. Qed.

(** [includes] finds exactly the occurrences of the pattern *)
Lemma includes_occurs (s pat : string) :
  includes s pat = true <-> exists pre post, s = pre ++ pat ++ post.
Proof.
  split.
  - induction s as [|c s IH]; rewrite includes_unfold; unfold startsWith;
      intros H; apply orb_true_iff in H; destruct H as [H | H].
    + destruct (prefix_inv _ _ H) as (r & Hr). exists "", r. exact Hr.
    + discriminate H.
    + destruct (prefix_inv _ _ H) as (r & Hr). exists "", r. exact Hr.
    + destruct (IH H) as (pre & post & ->).
      exists (String c pre), post. reflexivity.
  - intros (pre & post & ->).
    induction pre as [|c pre IH]; rewrite includes_unfold.
    + simpl. unfold startsWith. rewrite prefix_app. reflexivity.
    + simpl. rewrite IH. apply orb_true_r.
Qed.

Lemma toLowerCase_app (a b : string) :
  toLowerCase (a ++ b) = toLowerCase a ++ toLowerCase b.
Proof. induction a as [|c a IH]; simpl; [reflexivity | rewrite IH; reflexivity]. Qed.

Lemma toLowerCase_split (s x y : string) :
  toLowerCase s = x ++ y ->
  exists a b, s = a ++ b /\ toLowerCase a = x /\ toLowerCase b = y.
Proof.
  revert s. induction x as [|c x IH]; intros s H; simpl in H.
  - exists "", s. repeat split. exact H.
  - destruct s as [|d s]; simpl in H; [discriminate H|].
    injection H as Hc Hs.
    destruct (IH s Hs) as (a & b & -> & Ha & Hb).
    exists (String d a), b. simpl. rewrite Hc, Ha. repeat split. exact Hb.
Qed.

(** the test of the source, [name.toLowerCase().includes(w)], is containment
    up to the case of letters *)
Lemma includes_toLowerCase (s w : string) :
  includes (toLowerCase s) w = true <-> containsIgnoringCase s w.
Proof.
  rewrite includes_occurs. split.
  - intros (pre & post & H).
    destruct (toLowerCase_split _ _ _ H) as (a & bc & -> & _ & Hbc).
    destruct (toLowerCase_split _ _ _ Hbc) as (b & c & -> & Hb & _).
    exists a, b, c. split; [reflexivity | exact Hb].
  - intros (pre & mid & post & -> & Hmid).
    exists (toLowerCase pre), (toLowerCase post).
    rewrite !toLowerCase_app, Hmid. reflexivity.
Qed.

End Strings.

(* ================================================================== *)
(** * Properties of [parseFloat] *)

(** ** The value of a literal is never NaN *)

Section LiteralValue.

Lemma iter_pos_preserves {A : Type} (P : A -> Prop) (f : A -> A) :
  (forall x, P x -> P (f x)) ->
  forall (p : positive) (x : A), P x -> P (iter_pos f p x).
Proof.
  intros Hf. induction p as [p IH | p IH | ]; intros x Hx; simpl.
  - apply IH, IH, Hf, Hx.
  - apply IH, IH, Hx.
  - apply Hf, Hx.
Qed.

Lemma shr_1_nonneg (mrs : shr_record) :
  (0 <= shr_m mrs)%Z -> (0 <= shr_m (shr_1 mrs))%Z.
Proof.
  destruct mrs as [m r s]. simpl.
  destruct m as [|p|p]; simpl; intros H; try lia;
    destruct p; simpl; lia.
Qed.

Lemma shr_record_of_loc_m (m : Z) (l : location) :
  shr_m (shr_record_of_loc m l) = m.
Proof. destruct l as [|[ | | ]]; reflexivity. Qed.

Lemma shr_fexp_nonneg (m e : Z) (l : location) :
  (0 <= m)%Z -> (0 <= shr_m (fst (shr_fexp prec emax m e l)))%Z.
Proof.
  intros Hm. unfold shr_fexp, shr.
  destruct (fexp prec emax (Zdigits2 m + e) - e)%Z as [|p|p]; simpl;
    try (rewrite shr_record_of_loc_m; exact Hm).
  apply (iter_pos_preserves (fun mrs => (0 <= shr_m mrs)%Z)).
  - exact shr_1_nonneg.
  - rewrite shr_record_of_loc_m. exact Hm.
Qed.

Lemma round_nearest_even_nonneg (m : Z) (l : location) :
  (0 <= m)%Z -> (0 <= round_nearest_even m l)%Z.
Proof.
  intros Hm. destruct l as [|[ | | ]]; simpl; try lia.
  destruct (Z.even m); lia.
Qed.

Lemma binary_round_aux_not_NaN (s : bool) (m e : Z) (l : location) :
  (0 <= m)%Z -> isNaN (binary_round_aux prec emax s m e l) = false.
Proof.
  intros Hm. unfold binary_round_aux.
  pose proof (shr_fexp_nonneg m e l Hm) as H1.
  destruct (shr_fexp prec emax m e l) as [mrs' e']. simpl in H1.
  pose proof (shr_fexp_nonneg _ e' loc_Exact
                (round_nearest_even_nonneg _ (loc_of_shr_record mrs') H1)) as H2.
  destruct (shr_fexp prec emax
              (round_nearest_even (shr_m mrs') (loc_of_shr_record mrs'))
              e' loc_Exact) as [mrs'' e'']. simpl in H2.
  destruct (shr_m mrs'') as [|p|p]; [reflexivity | | lia].
  destruct (e'' <=? emax - prec)%Z; reflexivity.
Qed.

Lemma binary_round_not_NaN (s : bool) (m : positive) (e : Z) :
  isNaN (binary_round prec emax s m e) = false.
Proof.
  unfold binary_round.
  destruct (shl_align m e (fexp prec emax (Z.pos (digits2_pos m) + e))) as [mz ez].
  apply binary_round_aux_not_NaN. lia.
Qed.

Lemma div_finite_not_NaN (s : bool) (m d : positive) :
  isNaN (SFdiv prec emax (S754_finite s m 0) (S754_finite false d 0)) = false.
Proof.
  unfold SFdiv, SFdiv_core_binary.
  set (e' := Z.min _ _).
  set (m' := match (0 - 0 - e')%Z with
             | Z0 => Z.pos m
             | Z.pos _ => Z.shiftl (Z.pos m) (0 - 0 - e')
             | Z.neg _ => 0%Z
             end).
  assert (Hm' : (0 <= m')%Z).
  { unfold m'. destruct (0 - 0 - e')%Z; try lia.
    apply Z.shiftl_nonneg. lia. }
  pose proof (Z.div_pos m' (Z.pos d) Hm' ltac:(lia)) as Hq.
  unfold Z.div in Hq.
  destruct (Z.div_eucl m' (Z.pos d)) as [q r]. simpl in Hq.
  apply binary_round_aux_not_NaN. exact Hq.
Qed.

Lemma of_decimal_not_NaN (neg : bool) (m : N) (e : Z) :
  isNaN (of_decimal neg m e) = false.
Proof.
  unfold of_decimal. destruct m as [|p]; [reflexivity|].
  destruct e as [|k|k].
  - apply binary_round_not_NaN.
  - apply binary_round_not_NaN.
  - apply div_finite_not_NaN.
Qed.

Lemma literalValue_not_NaN (l : literal) : isNaN (literalValue l) = false.
Proof.
  destruct l as [neg | neg ip fp ex]; simpl;
    [reflexivity | apply of_decimal_not_NaN].
Qed.

(** [parseFloat] gives NaN exactly when the text, after its leading white
    space, does not begin with a numeric literal *)
Lemma parseFloat_NaN_iff (s : string) :
  isNaN (parseFloat s) = true <-> scan (trimStart s) = None.
Proof.
  unfold parseFloat.
  destruct (scan (trimStart s)) as [[l r]|]; split; intros H;
    try reflexivity; try discriminate H.
  rewrite literalValue_not_NaN in H. discriminate H.
Qed.

(** text that is empty or blank, or whose first character after the white
    space cannot start a number, does not parse *)
Lemma nonNumericText_NaN (s : string) :
  nonNumericText s = true -> isNaN (parseFloat s) = true.
Proof.
  unfold nonNumericText. intros H. apply parseFloat_NaN_iff.
  destruct (trimStart s) as [|c s']; [reflexivity|].
  apply negb_true_iff in H. unfold canStartNumber in H.
  repeat (apply orb_false_iff in H; destruct H as [H ?]).
  unfold scan, scanSign.
  replace (c =? "-")%char with false by (symmetry; assumption).
  replace (c =? "+")%char with false by (symmetry; assumption).
  unfold scanUnsigned, startsWith.
  change "Infinity" with (String "I" "nfinity").
  rewrite prefix_cons.
  destruct (ascii_dec "I" c) as [<- | _].
  - match goal with Hx : ("I" =? "I")%char = false |- _ => discriminate Hx end.
  - simpl. rewrite H. simpl.
    replace (c =? ".")%char with false by (symmetry; assumption).
    reflexivity.
Qed.

End LiteralValue.

(* ================================================================== *)
(** * Integers as numbers

    An integer [z] enters the program as the number [of_Z z].  On such
    numbers the comparison [>=] of the source agrees with the order of the
    integers, whatever the size of [z]. *)

Section Integers.

Local Open Scope Z_scope.

Lemma digits2_pos_size p : digits2_pos p = Pos.size p.
Proof. induction p; simpl; try rewrite IHp; reflexivity. Qed.

Lemma digits2_pos_gt p : Z.pos p < 2 ^ Z.pos (digits2_pos p).
Proof.
  rewrite digits2_pos_size.
  pose proof (Pos.size_gt p) as H.
  rewrite <- (Pos2Z.inj_pow 2 (Pos.size p)). lia.
Qed.

Lemma digits2_pos_le p : 2 ^ Z.pos (digits2_pos p) <= 2 * Z.pos p.
Proof.
  rewrite digits2_pos_size.
  pose proof (Pos.size_le p) as H.
  rewrite <- (Pos2Z.inj_pow 2 (Pos.size p)). lia.
Qed.

Lemma shr_1_div2 (mrs : shr_record) :
  0 <= shr_m mrs -> shr_m (shr_1 mrs) = shr_m mrs / 2.
Proof.
  destruct mrs as [m r s]. simpl.
  destruct m as [|p|p]; simpl; intros H; try lia; [reflexivity|].
  destruct p as [p|p|]; simpl.
  - rewrite Pos2Z.inj_xI. apply (Z.div_unique_pos _ _ _ 1); lia.
  - rewrite Pos2Z.inj_xO. apply (Z.div_unique_pos _ _ _ 0); lia.
  - reflexivity.
Qed.

Lemma iter_shr_1_div (k : positive) :
  forall mrs, 0 <= shr_m mrs ->
  shr_m (iter_pos shr_1 k mrs) = shr_m mrs / 2 ^ Z.pos k.
Proof.
  induction k as [k IH | k IH | ]; intros mrs Hm; simpl iter_pos.
  - assert (H1 : 0 <= shr_m (shr_1 mrs)) by (rewrite shr_1_div2 by lia; apply Z.div_pos; lia).
    assert (H2 : 0 <= shr_m (iter_pos shr_1 k (shr_1 mrs))) by (rewrite IH by lia; apply Z.div_pos; lia).
    rewrite IH, IH, shr_1_div2 by lia.
    rewrite !Z.div_div by lia.
    f_equal. replace (Z.pos k~1) with (1 + Z.pos k + Z.pos k) by lia.
    rewrite !Z.pow_add_r by lia. rewrite Z.pow_1_r. ring.
  - assert (H2 : 0 <= shr_m (iter_pos shr_1 k mrs)) by (rewrite IH by lia; apply Z.div_pos; lia).
    rewrite IH, IH by lia. rewrite !Z.div_div by lia.
    f_equal. replace (Z.pos k~0) with (Z.pos k + Z.pos k) by lia.
    rewrite Z.pow_add_r by lia. ring.
  - apply shr_1_div2. exact Hm.
Qed.

Lemma Zdigits2_pos_bounds (m : Z) :
  0 < m -> 0 < Zdigits2 m /\ 2 ^ Zdigits2 m <= 2 * m.
Proof.
  destruct m as [|p|p]; intros H; try lia. simpl.
  split; [lia | apply digits2_pos_le].
Qed.

(** rounding a positive integer whose exponent is not negative: the mantissa
    stays positive, the exponent does not decrease *)
Lemma shr_fexp_pos (m e : Z) (l : location) :
  0 < m -> 0 <= e ->
  0 < shr_m (fst (shr_fexp prec emax m e l))
  /\ e <= snd (shr_fexp prec emax m e l).
Proof.
  intros Hm He. unfold shr_fexp, shr.
  destruct (Zdigits2_pos_bounds m Hm) as [Hd Hle].
  destruct (fexp prec emax (Zdigits2 m + e) - e) as [|k|k] eqn:Hk; simpl;
    try (rewrite shr_record_of_loc_m; lia).
  rewrite iter_shr_1_div by (rewrite shr_record_of_loc_m; lia).
  rewrite shr_record_of_loc_m.
  split; [|lia].
  apply Z.div_str_pos. split; [apply Z.pow_pos_nonneg; lia|].
  unfold fexp, emin, prec, emax in Hk.
  assert (Hkd : Z.pos k = Zdigits2 m - 53) by lia.
  assert (2 ^ Z.pos k * 2 ^ 53 = 2 ^ Zdigits2 m).
  { rewrite <- Z.pow_add_r by lia. f_equal. lia. }
  assert (0 < 2 ^ Z.pos k) by (apply Z.pow_pos_nonneg; lia).
  change (2 ^ 53) with 9007199254740992 in *. nia.
Qed.

Lemma shr_fexp_snd (m e : Z) (l : location) :
  snd (shr_fexp prec emax m e l) = Z.max e (fexp prec emax (Zdigits2 m + e)).
Proof.
  unfold shr_fexp, shr.
  destruct (fexp prec emax (Zdigits2 m + e) - e) as [|k|k] eqn:Hk; simpl; lia.
Qed.

Lemma round_nearest_even_ge (m : Z) (l : location) :
  m <= round_nearest_even m l.
Proof.
  destruct l as [|[ | | ]]; simpl; try lia. destruct (Z.even m); lia.
Qed.

(** a value rounded with the negative sign is below every positive number *)
Lemma SFleb_binary_round_aux_neg (m0 : positive) (e0 m e : Z) (l : location) :
  SFleb (S754_finite false m0 e0) (binary_round_aux prec emax true m e l) = false.
Proof.
  unfold binary_round_aux.
  destruct (shr_fexp prec emax m e l) as [mrs' e'].
  destruct (shr_fexp prec emax _ e' loc_Exact) as [mrs'' e''].
  destruct (shr_m mrs''); [reflexivity | | reflexivity].
  destruct (e'' <=? _); reflexivity.
Qed.

(** a positive integer with a non-negative exponent rounds to a finite number
    whose exponent is at least the format's exponent for it, or overflows *)
Lemma binary_round_aux_pos (s : bool) (m e : Z) :
  0 < m -> 0 <= e ->
  binary_round_aux prec emax s m e loc_Exact = S754_infinity s
  \/ exists m' e', binary_round_aux prec emax s m e loc_Exact = S754_finite s m' e'
                   /\ fexp prec emax (Zdigits2 m + e) <= e'.
Proof.
  intros Hm He. unfold binary_round_aux.
  destruct (shr_fexp_pos m e loc_Exact Hm He) as [H1 H1e].
  pose proof (shr_fexp_snd m e loc_Exact) as H1s.
  destruct (shr_fexp prec emax m e loc_Exact) as [mrs' e']. simpl in *.
  pose proof (round_nearest_even_ge (shr_m mrs') (loc_of_shr_record mrs')) as Hr.
  destruct (shr_fexp_pos (round_nearest_even (shr_m mrs') (loc_of_shr_record mrs'))
              e' loc_Exact ltac:(lia) ltac:(lia)) as [H2 H2e].
  destruct (shr_fexp prec emax
              (round_nearest_even (shr_m mrs') (loc_of_shr_record mrs'))
              e' loc_Exact) as [mrs'' e'']. simpl in *.
  destruct (shr_m mrs'') as [|q|q]; try lia.
  destruct (e'' <=? _); [right | left; reflexivity].
  exists q, e''. split; [reflexivity | lia].
Qed.

Lemma of_Z_large (p : positive) :
  53 < Z.pos (digits2_pos p) ->
  of_Z (Z.pos p) = S754_infinity false
  \/ exists m e, of_Z (Z.pos p) = S754_finite false m e /\ 1 <= e.
Proof.
  intros Hd. unfold of_Z, binary_normalize, binary_round.
  assert (Hf : fexp prec emax (Z.pos (digits2_pos p) + 0) = Z.pos (digits2_pos p) - 53).
  { unfold fexp, emin, prec, emax. lia. }
  rewrite Hf. unfold shl_align.
  destruct (Z.pos (digits2_pos p) - 53 - 0) as [|k|k] eqn:Hk; try lia.
  destruct (binary_round_aux_pos false (Z.pos p) 0 ltac:(lia) ltac:(lia))
    as [Hinf | (m & e & Hfin & He)]; [left; exact Hinf | right].
  exists m, e. split; [exact Hfin|].
  change (Zdigits2 (Z.pos p)) with (Z.pos (digits2_pos p)) in He. lia.
Qed.

Lemma iter_xO_value (p : positive) (k : positive) :
  Z.pos (Pos.iter xO p k) = Z.pos p * 2 ^ Z.pos k
  /\ digits2_pos (Pos.iter xO p k) = (digits2_pos p + k)%positive.
Proof.
  induction k as [|k IH] using Pos.peano_ind.
  - simpl. split; lia.
  - rewrite Pos.iter_succ. destruct IH as [IHv IHd]. split.
    + rewrite Pos2Z.inj_xO, IHv, Pos2Z.inj_succ, Z.pow_succ_r by lia. ring.
    + simpl. rewrite IHd. lia.
Qed.

(** an integer below 2^53 is a number: mantissa aligned to 53 bits *)
Lemma of_Z_small (p : positive) :
  Z.pos (digits2_pos p) <= 53 ->
  exists m,
    of_Z (Z.pos p) = S754_finite false m (Z.pos (digits2_pos p) - 53)
    /\ Z.pos m = Z.pos p * 2 ^ (53 - Z.pos (digits2_pos p)).
Proof.
  intros Hd. unfold of_Z, binary_normalize, binary_round.
  assert (Hf : fexp prec emax (Z.pos (digits2_pos p) + 0) = Z.pos (digits2_pos p) - 53).
  { unfold fexp, emin, prec, emax. lia. }
  rewrite Hf.
  assert (Hal : exists m, shl_align p 0 (Z.pos (digits2_pos p) - 53)
                          = (m, Z.pos (digits2_pos p) - 53)
                          /\ Z.pos m = Z.pos p * 2 ^ (53 - Z.pos (digits2_pos p))
                          /\ Z.pos (digits2_pos m) = 53).
  { unfold shl_align.
    destruct (Z.pos (digits2_pos p) - 53 - 0) as [|k|k] eqn:Hk; try lia.
    - exists p. replace (Z.pos (digits2_pos p) - 53) with 0 by lia.
      replace (53 - Z.pos (digits2_pos p)) with 0 by lia.
      split; [reflexivity|]. split; lia.
    - exists (Pos.iter xO p k). destruct (iter_xO_value p k) as [Hv Hdg].
      split; [reflexivity|]. split.
      + rewrite Hv. f_equal. f_equal. lia.
      + rewrite Hdg. lia. }
  destruct Hal as (m & -> & Hv & Hdm). exists m. split; [|exact Hv].
  set (e := Z.pos (digits2_pos p) - 53) in *.
  assert (Hshr : forall l, shr_fexp prec emax (Z.pos m) e l
                           = (shr_record_of_loc (Z.pos m) l, e)).
  { intros l. unfold shr_fexp, shr.
    replace (fexp prec emax (Zdigits2 (Z.pos m) + e) - e) with 0; [reflexivity|].
    simpl Zdigits2. unfold fexp, emin, prec, emax. lia. }
  unfold binary_round_aux. rewrite Hshr. simpl.
  rewrite Hshr. simpl.
  replace (e <=? 971) with true; [reflexivity|].
  symmetry. apply Z.leb_le. lia.
Qed.

Lemma digits_below_2_53 (a : positive) :
  Z.pos a < 2 ^ 53 -> Z.pos (digits2_pos a) <= 53.
Proof.
  intros Ha. pose proof (digits2_pos_le a) as Hle.
  destruct (Z_le_gt_dec (Z.pos (digits2_pos a)) 53) as [|Hgt]; [assumption|].
  assert (2 ^ 54 <= 2 ^ Z.pos (digits2_pos a)) by (apply Z.pow_le_mono_r; lia).
  change (2 ^ 54) with (2 * 2 ^ 53) in *. lia.
Qed.

Lemma SFleb_of_Z_pos (a z : positive) :
  Z.pos a < 2 ^ 53 ->
  SFleb (of_Z (Z.pos a)) (of_Z (Z.pos z)) = (Z.pos a <=? Z.pos z).
Proof.
  intros Ha.
  pose proof (digits_below_2_53 a Ha) as Hda.
  destruct (of_Z_small a Hda) as (ma & -> & Hma).
  destruct (Z_le_gt_dec (Z.pos (digits2_pos z)) 53) as [Hdz | Hdz].
  - destruct (of_Z_small z Hdz) as (mz & -> & Hmz).
    unfold SFleb, SFcompare.
    pose proof (digits2_pos_gt a) as Ha1. pose proof (digits2_pos_le a) as Ha2.
    pose proof (digits2_pos_gt z) as Hz1. pose proof (digits2_pos_le z) as Hz2.
    destruct (Z.compare_spec (Z.pos (digits2_pos a) - 53) (Z.pos (digits2_pos z) - 53))
      as [Heq | Hlt | Hgt].
    + assert (Hd : Z.pos (digits2_pos a) = Z.pos (digits2_pos z)) by lia.
      rewrite Hd in Hma.
      assert (HK : 0 < 2 ^ (53 - Z.pos (digits2_pos z))) by (apply Z.pow_pos_nonneg; lia).
      change (Pos.compare_cont Eq ma mz) with (Z.pos ma ?= Z.pos mz).
      rewrite Hma, Hmz.
      rewrite <- (Zmult_compare_compat_r _ _ _ (Z.lt_gt _ _ HK)).
      unfold Z.leb. destruct (Z.pos a ?= Z.pos z); reflexivity.
    + symmetry. apply Z.leb_le.
      assert (2 ^ Z.pos (digits2_pos a) <= 2 ^ (Z.pos (digits2_pos z) - 1))
        by (apply Z.pow_le_mono_r; lia).
      assert (2 * 2 ^ (Z.pos (digits2_pos z) - 1) = 2 ^ Z.pos (digits2_pos z)).
      { rewrite <- Z.pow_succ_r by lia. f_equal. lia. }
      lia.
    + symmetry. apply Z.leb_gt.
      assert (2 ^ Z.pos (digits2_pos z) <= 2 ^ (Z.pos (digits2_pos a) - 1))
        by (apply Z.pow_le_mono_r; lia).
      assert (2 * 2 ^ (Z.pos (digits2_pos a) - 1) = 2 ^ Z.pos (digits2_pos a)).
      { rewrite <- Z.pow_succ_r by lia. f_equal. lia. }
      lia.
  - assert (Hz : 2 ^ 53 <= Z.pos z).
    { pose proof (digits2_pos_le z) as Hle.
      assert (2 ^ 54 <= 2 ^ Z.pos (digits2_pos z)) by (apply Z.pow_le_mono_r; lia).
      change (2 ^ 54) with (2 * 2 ^ 53) in *. lia. }
    replace (Z.pos a <=? Z.pos z) with true by (symmetry; apply Z.leb_le; lia).
    destruct (of_Z_large z ltac:(lia)) as [-> | (m & e & -> & He)]; [reflexivity|].
    unfold SFleb, SFcompare.
    replace (Z.pos (digits2_pos a) - 53 ?= e) with Lt; [reflexivity|].
    symmetry. apply Z.compare_lt_iff. lia.
Qed.

(** [z >= a], computed on numbers, is the comparison of the integers *)
Lemma ge_of_Z (a : positive) (z : Z) :
  Z.pos a < 2 ^ 53 ->
  ge (of_Z z) (of_Z (Z.pos a)) = (Z.pos a <=? z).
Proof.
  intros Ha. unfold ge. destruct z as [|p|p].
  - assert (Hda : Z.pos (digits2_pos a) <= 53).
    { pose proof (digits2_pos_le a) as Hle.
      destruct (Z_le_gt_dec (Z.pos (digits2_pos a)) 53) as [|Hgt]; [assumption|].
      assert (2 ^ 54 <= 2 ^ Z.pos (digits2_pos a)) by (apply Z.pow_le_mono_r; lia).
      change (2 ^ 54) with (2 * 2 ^ 53) in *. lia. }
    destruct (of_Z_small a Hda) as (ma & -> & _). reflexivity.
  - apply SFleb_of_Z_pos. exact Ha.
  - assert (Hda : Z.pos (digits2_pos a) <= 53).
    { pose proof (digits2_pos_le a) as Hle.
      destruct (Z_le_gt_dec (Z.pos (digits2_pos a)) 53) as [|Hgt]; [assumption|].
      assert (2 ^ 54 <= 2 ^ Z.pos (digits2_pos a)) by (apply Z.pow_le_mono_r; lia).
      change (2 ^ 54) with (2 * 2 ^ 53) in *. lia. }
    destruct (of_Z_small a Hda) as (ma & -> & _).
    replace (Z.pos a <=? Z.neg p) with false by (symmetry; apply Z.leb_gt; lia).
    unfold of_Z, binary_normalize, binary_round.
    destruct (shl_align p 0 _) as [mz ez].
    apply SFleb_binary_round_aux_neg.
Qed.

End Integers.

(* ================================================================== *)
(** * Properties of the confidence classifier *)

(** C5 (as the code has it).  [getScoreMeta] is defined on every integer and
    returns one of three bands: High Confidence from 85 upwards, scores
    above 100 included, since no branch bounds the score from above;
    Moderate Review from 70 to 84; Critical / Low Confidence for every score
    below 70, negative scores included. *)
Theorem getScoreMeta_bands (score : Z) :
  ((85 <= score)%Z ->
     label (getScoreMeta (of_Z score)) = "High Confidence"
     /\ severityBand (getScoreMeta (of_Z score)) = Some high)
  /\ ((70 <= score < 85)%Z ->
     label (getScoreMeta (of_Z score)) = "Moderate Review"
     /\ severityBand (getScoreMeta (of_Z score)) = Some moderate)
  /\ ((score < 70)%Z ->
     label (getScoreMeta (of_Z score)) = "Critical / Low Confidence"
     /\ severityBand (getScoreMeta (of_Z score)) = Some critical)
  /\ severityBand (getScoreMeta (of_Z 85)) = Some high
  /\ severityBand (getScoreMeta (of_Z 84)) = Some moderate
  /\ severityBand (getScoreMeta (of_Z 70)) = Some moderate
  /\ severityBand (getScoreMeta (of_Z 69)) = Some critical.
Proof.
  assert (H85 : ge (of_Z score) (of_Z 85) = (85 <=? score)%Z)
    by (apply ge_of_Z; reflexivity).
  assert (H70 : ge (of_Z score) (of_Z 70) = (70 <=? score)%Z)
    by (apply ge_of_Z; reflexivity).
  assert (Hhigh : (85 <= score)%Z -> (85 <=? score)%Z = true)
    by (intros; apply Z.leb_le; assumption).
  assert (Hmod : (70 <= score < 85)%Z ->
                 (85 <=? score)%Z = false /\ (70 <=? score)%Z = true)
    by (intros; split; [apply Z.leb_gt | apply Z.leb_le]; lia).
  assert (Hlow : (score < 70)%Z ->
                 (85 <=? score)%Z = false /\ (70 <=? score)%Z = false)
    by (intros; split; apply Z.leb_gt; lia).
  unfold getScoreMeta. rewrite H85, H70.
  split; [intros H; rewrite (Hhigh H); split; reflexivity|].
  split; [intros H; destruct (Hmod H) as [-> ->]; split; reflexivity|].
  split; [intros H; destruct (Hlow H) as [-> ->]; split; reflexivity|].
  repeat split.
Qed.

Lemma getScoreMeta_bands_witness :
  label (getScoreMeta (of_Z (-5))) = "Critical / Low Confidence"
  /\ label (getScoreMeta (of_Z 84)) = "Moderate Review"
  /\ label (getScoreMeta (of_Z 250)) = "High Confidence".
Proof.
  split; [|split].
  - apply (getScoreMeta_bands (-5)). lia.
  - apply (getScoreMeta_bands 84). lia.
  - apply (getScoreMeta_bands 250). lia.
Defined.

(** C5, refuted as stated.  A score above 100 does not fall through to the
    last branch: 101 and 250 are at least 85, so the first branch returns
    High Confidence for them. *)
Lemma score_above_100_not_critical :
  (100 < 101)%Z
  /\ label (getScoreMeta (of_Z 101)) = "High Confidence"
  /\ severityBand (getScoreMeta (of_Z 101)) = Some high
  /\ severityBand (getScoreMeta (of_Z 101)) <> Some critical
  /\ label (getScoreMeta (of_Z 250)) = "High Confidence"
  /\ label (getScoreMeta (of_Z 250)) <> "Critical / Low Confidence".
Proof.
  split; [lia|].
  split; [reflexivity|].
  split; [reflexivity|].
  split; [discriminate|].
  split; [reflexivity | discriminate].
Qed.

(* ================================================================== *)
(** * Properties of the slack calculator *)

(** ** Evaluation on concrete texts *)

Example parseFloat_decimal :
  parseFloat "0.1" = S754_finite false 7205759403792794 (-56).
Proof. reflexivity. Qed.

Example parseFloat_prefix : parseFloat "  -3.5e2xyz" = parseFloat "-350".
Proof. reflexivity. Qed.

Example parseFloat_exponent_without_digits : parseFloat "1e+" = parseFloat "1".
Proof. reflexivity. Qed.

Example parseFloat_point_alone : parseFloat "." = NaN.
Proof. reflexivity. Qed.

Example parseFloat_overflow : parseFloat "1e400" = Infinity.
Proof. reflexivity. Qed.

Example parseFloat_tie_to_even :
  parseFloat "9007199254740993" = parseFloat "9007199254740992".
Proof. reflexivity. Qed.

Example parseFloat_smallest_subnormal :
  parseFloat "4.9e-324" = S754_finite false 1 (-1074).
Proof. reflexivity. Qed.

Example slack_leverage_within_limit :
  calculateSlack "3.5" "2.1" "Leverage Ratio"
  = Some {| slack := parseFloat "1.4"; percentage := of_Z 40;
            isSafe := true; isMax := true |}.
Proof. reflexivity. Qed.

Example slack_leverage_breach :
  option_map (fun r => (slack r, isSafe r, isMax r))
             (calculateSlack "3.5" "4.0" "Leverage Ratio")
  = Some (parseFloat "-0.5", false, true).
Proof. reflexivity. Qed.

Example slack_interest_cover :
  calculateSlack "2.0" "2.5" "Interest Cover Ratio"
  = Some {| slack := parseFloat "0.5"; percentage := of_Z 20;
            isSafe := true; isMax := false |}.
Proof. reflexivity. Qed.

Example slack_at_the_limit :
  option_map isSafe (calculateSlack "3.5" "3.50" "Leverage Ratio") = Some true.
Proof. reflexivity. Qed.

Example slack_debt_service_cover_is_max :
  option_map isMax (calculateSlack "1.2" "1.5" "Debt Service Coverage Ratio")
  = Some true.
Proof. reflexivity. Qed.

Section SlackFacts.

(** [x - x] is zero unless [x] is infinite or NaN *)
Lemma sub_diag (x : number) :
  isNaN x = false -> isInfinite x = false -> isZero (sub x x) = true.
Proof.
  destruct x as [s | s | | s m e]; simpl; intros Hn Hi;
    try discriminate.
  - destruct s; reflexivity.
  - unfold sub, SFsub. rewrite Z.sub_diag. reflexivity.
Qed.

(** zero, of either sign, satisfies [>= 0] *)
Lemma ge_zero (x : number) : isZero x = true -> ge x (of_Z 0) = true.
Proof. destruct x; simpl; intros H; try discriminate H; reflexivity. Qed.

(** dividing by zero and scaling by 100 gives an infinity or NaN *)
Lemma percentage_zero_denominator (x d : number) :
  isZero d = true ->
  isInfinite (mul (div (sub d x) d) (of_Z 100)) = true
  \/ isNaN (mul (div (sub d x) d) (of_Z 100)) = true.
Proof.
  destruct d as [sd | sd | | sd md ed]; simpl; intros Hd; try discriminate Hd.
  destruct x as [sx | sx | | sx mx ex].
  - right. destruct sd, sx; reflexivity.
  - left. destruct sd, sx; reflexivity.
  - right. reflexivity.
  - left. destruct sd, sx; reflexivity.
Qed.

Lemma calculateSlack_parsed (limitStr actualStr name : string) :
  isNaN (parseFloat limitStr) = false ->
  isNaN (parseFloat actualStr) = false ->
  calculateSlack limitStr actualStr name
  = let limit := parseFloat limitStr in
    let actual := parseFloat actualStr in
    let isMax := includes (toLowerCase name) "leverage"
                 || includes (toLowerCase name) "debt" in
    let slack := if isMax then sub limit actual else sub actual limit in
    Some {| slack := slack;
            percentage := if isMax then mul (div slack limit) (of_Z 100)
                          else mul (div slack actual) (of_Z 100);
            isSafe := ge slack (of_Z 0);
            isMax := isMax |}.
Proof.
  intros Hl Ha. unfold calculateSlack. rewrite Hl, Ha. reflexivity.
Qed.

End SlackFacts.

(** C4.  When both texts parse, [calculateSlack] returns a result whose
    polarity is max exactly when the name contains "leverage" or "debt" in
    any letter case; slack is [limit - actual] and the percentage
    [(slack / limit) * 100] for max, [actual - limit] and
    [(slack / actual) * 100] otherwise; [isSafe] is [slack >= 0], so a zero
    slack, as when a finite actual equals the limit, is compliant. *)
Theorem calculateSlack_formula (limitStr actualStr name : string) :
  isNaN (parseFloat limitStr) = false ->
  isNaN (parseFloat actualStr) = false ->
  let limit := parseFloat limitStr in
  let actual := parseFloat actualStr in
  exists r,
    calculateSlack limitStr actualStr name = Some r
    /\ (isMax r = true <->
        containsIgnoringCase name "leverage" \/ containsIgnoringCase name "debt")
    /\ (isMax r = true ->
        slack r = sub limit actual
        /\ percentage r = mul (div (slack r) limit) (of_Z 100))
    /\ (isMax r = false ->
        slack r = sub actual limit
        /\ percentage r = mul (div (slack r) actual) (of_Z 100))
    /\ isSafe r = ge (slack r) (of_Z 0)
    /\ (isZero (slack r) = true -> isSafe r = true)
    /\ (limit = actual -> isInfinite limit = false -> isSafe r = true).
Proof.
  intros Hl Ha limit actual.
  rewrite (calculateSlack_parsed limitStr actualStr name Hl Ha).
  cbv zeta. fold limit actual.
  eexists. split; [reflexivity|]. simpl.
  split.
  { rewrite orb_true_iff, !includes_toLowerCase. reflexivity. }
  split.
  { intros ->. split; reflexivity. }
  split.
  { intros ->. split; reflexivity. }
  split; [reflexivity|].
  split; [apply ge_zero|].
  intros Heq Hinf. apply ge_zero.
  rewrite <- Heq.
  destruct (includes (toLowerCase name) "leverage"
            || includes (toLowerCase name) "debt");
    apply sub_diag; assumption.
Qed.

Lemma calculateSlack_formula_witness :
  exists r,
    calculateSlack "3.5" "2.1" "Leverage Ratio" = Some r
    /\ isMax r = true
    /\ slack r = sub (parseFloat "3.5") (parseFloat "2.1")
    /\ isSafe r = true.
Proof.
  destruct (calculateSlack_formula "3.5" "2.1" "Leverage Ratio" eq_refl eq_refl)
    as (r & Hr & Hmax & Hmaxf & _ & Hsafe & _).
  assert (Hm : isMax r = true).
  { apply Hmax. left. exists "", "Leverage", " Ratio". split; reflexivity. }
  exists r. split; [exact Hr|].
  split; [exact Hm|].
  split; [apply Hmaxf; exact Hm|].
  rewrite Hsafe. destruct (Hmaxf Hm) as [-> _]. reflexivity.
Defined.

(** C7.  When the limit text or the actual text does not parse
    ([parseFloat] gives NaN), [calculateSlack] returns [null]; being a
    function into an option, that is its only way to signal it.  Text that is
    empty or blank, or that starts with a character no number can start with,
    as "abc" does, is such text. *)
Theorem calculateSlack_unparsed (limitStr actualStr name : string) :
  (isNaN (parseFloat limitStr) = true \/ isNaN (parseFloat actualStr) = true ->
   calculateSlack limitStr actualStr name = None)
  /\ (nonNumericText limitStr = true \/ nonNumericText actualStr = true ->
      calculateSlack limitStr actualStr name = None).
Proof.
  assert (Hnan : isNaN (parseFloat limitStr) = true
                 \/ isNaN (parseFloat actualStr) = true ->
                 calculateSlack limitStr actualStr name = None).
  { intros [H | H]; unfold calculateSlack; rewrite H; [reflexivity|].
    rewrite orb_true_r. reflexivity. }
  split; [exact Hnan|].
  intros [H | H]; apply Hnan; [left | right]; apply nonNumericText_NaN; exact H.
Qed.

Lemma calculateSlack_unparsed_witness :
  calculateSlack "abc" "2.1" "Leverage Ratio" = None
  /\ calculateSlack "3.5" "" "Leverage Ratio" = None.
Proof.
  split.
  - apply (calculateSlack_unparsed "abc" "2.1" "Leverage Ratio").
    left. reflexivity.
  - apply (calculateSlack_unparsed "3.5" "" "Leverage Ratio").
    right. reflexivity.
Defined.

(** C8.  When both texts parse, [calculateSlack] returns a result even if the
    denominator of the percentage is zero (the limit for a max covenant, the
    actual for a min covenant); the percentage is then an infinity or NaN. *)
Theorem calculateSlack_zero_denominator (limitStr actualStr name : string) :
  isNaN (parseFloat limitStr) = false ->
  isNaN (parseFloat actualStr) = false ->
  exists r,
    calculateSlack limitStr actualStr name = Some r
    /\ (isZero (if isMax r then parseFloat limitStr else parseFloat actualStr)
        = true ->
        isInfinite (percentage r) = true \/ isNaN (percentage r) = true).
Proof.
  intros Hl Ha.
  rewrite (calculateSlack_parsed limitStr actualStr name Hl Ha).
  cbv zeta. eexists. split; [reflexivity|]. simpl.
  destruct (includes (toLowerCase name) "leverage"
            || includes (toLowerCase name) "debt");
    apply percentage_zero_denominator.
Qed.

Lemma calculateSlack_zero_denominator_witness :
  exists r,
    calculateSlack "0" "2.1" "Leverage Ratio" = Some r
    /\ (isInfinite (percentage r) = true \/ isNaN (percentage r) = true).
Proof.
  destruct (calculateSlack_zero_denominator "0" "2.1" "Leverage Ratio"
              eq_refl eq_refl) as (r & Hr & Hp).
  exists r. split; [exact Hr|].
  apply Hp.
  injection Hr as <-. reflexivity.
Defined.

(* ================================================================== *)
(** * Properties of the numerals *)

Section NumeralFacts.











(** *** The exponent part *)





(** *** Text that does not continue a numeral *)




(** *** The scanner on a numeral *)













End NumeralFacts.


Example numerals_as_written :
  Numeral.render Numeral.threePointFive = "3.5"
  /\ Numeral.render Numeral.twoPointOne = "2.1"
  /\ Numeral.denotation Numeral.threePointFive
     = S754_finite false 7881299347898368 (-51)
  /\ Numeral.denotation Numeral.twoPointOne
     = S754_finite false 4728779608739021 (-51).
Proof. repeat split. Qed.

Example trailing_text :
  forallb (fun t => negb (Numeral.continues Numeral.threePointFive t))
          ["x"; " times"; "EUR"; "e"; "E+"; "-"; "-1"; "."; ".5"; "%"; ""]
  = true
  /\ forallb (Numeral.continues Numeral.threePointFive) ["0"; "e2"; "E-1"]
     = true.
Proof. split; reflexivity. Qed.


Import JSText JSArray Report MarketService App Shape2.

(* ================================================================== *)
(** * Properties of the covenant filter *)

Section Covenants.

Lemma isCovenantName_string (c : ClauseAnalysis) (s : string) :
  name c = VString s ->
  isCovenantName c
  = Normal (includes (toLowerCase s) "covenant"
            || includes (toLowerCase s) "leverage"
            || includes (toLowerCase s) "ratio").
Proof.
  intros H. unfold isCovenantName, nameIncludes. rewrite H. simpl.
  destruct (includes (toLowerCase s) "covenant"); [reflexivity|].
  simpl. destruct (includes (toLowerCase s) "leverage"); reflexivity.
Qed.

Lemma isCovenantName_not_string (c : ClauseAnalysis) :
  ~ hasStringName c -> isCovenantName c = Throw TypeError.
Proof.
  intros H. unfold isCovenantName, nameIncludes.
  destruct (name c) eqn:Hn; try reflexivity.
  contradiction H. eexists. exact Hn.
Qed.

Lemma hasStringName_dec (c : ClauseAnalysis) :
  hasStringName c \/ ~ hasStringName c.
Proof.
  unfold hasStringName. destruct (name c);
    try (right; intros (s & Hs); discriminate Hs).
  left. eexists. reflexivity.
Qed.

Lemma covenantText_includes (s : string) :
  includes (toLowerCase s) "covenant"
  || includes (toLowerCase s) "leverage"
  || includes (toLowerCase s) "ratio" = true
  <-> covenantText s.
Proof.
  unfold covenantText.
  rewrite !orb_true_iff, !includes_toLowerCase. tauto.
Qed.

(** the filter never throws anything but a TypeError, and throws exactly when
    a name is not a string *)
Lemma filterM_isCovenantName (cs : list ClauseAnalysis) :
  (Forall hasStringName cs ->
   exists keep,
     filterM isCovenantName cs = Normal (filter keep cs)
     /\ forall c s, name c = VString s -> (keep c = true <-> covenantText s))
  /\ (Exists (fun c => ~ hasStringName c) cs ->
      filterM isCovenantName cs = Throw TypeError).
Proof.
  split.
  - intros Hall.
    exists (fun c => match name c with
                     | VString s => includes (toLowerCase s) "covenant"
                                    || includes (toLowerCase s) "leverage"
                                    || includes (toLowerCase s) "ratio"
                     | _ => false
                     end).
    split.
    + induction Hall as [|c cs (s & Hs) _ IH]; [reflexivity|].
      simpl. rewrite (isCovenantName_string c s Hs). simpl.
      rewrite IH. simpl. rewrite Hs. reflexivity.
    + intros c s Hs. rewrite Hs. apply covenantText_includes.
  - induction cs as [|c cs IH]; intros Hex; [inversion Hex|].
    simpl. destruct (hasStringName_dec c) as [(s & Hs) | Hn].
    + rewrite (isCovenantName_string c s Hs). simpl.
      rewrite IH; [reflexivity|].
      inversion Hex as [? ? Hc | ? ? Hcs]; subst; [|exact Hcs].
      contradiction Hc. exists s. exact Hs.
    + rewrite (isCovenantName_not_string c Hn). reflexivity.
Qed.

End Covenants.

(** X1.  When every clause name is a string, [financialCovenants] keeps, in
    their order and with their repetitions, exactly the clauses whose name
    contains "covenant", "leverage" or "ratio" in any letter case. *)
Theorem financialCovenants_selection (result : AnalysisResult) :
  Forall hasStringName (confidenceAnalysis result) ->
  exists keep,
    financialCovenants result = Normal (filter keep (confidenceAnalysis result))
    /\ forall c s, name c = VString s -> (keep c = true <-> covenantText s).
Proof.
  intros H. exact (proj1 (filterM_isCovenantName _) H).
Qed.

(** X2.  [financialCovenants] throws, and then a TypeError, exactly when the
    name of some clause is not a string. *)
Theorem financialCovenants_failure (result : AnalysisResult) :
  (exists e, financialCovenants result = Throw e)
  <-> Exists (fun c => ~ hasStringName c) (confidenceAnalysis result).
Proof.
  unfold financialCovenants. split.
  - intros (e & He).
    destruct (Forall_Exists_dec hasStringName) with (l := confidenceAnalysis result)
      as [Hall | Hex].
    + intros c. unfold hasStringName.
      destruct (name c); try (right; intros (s & Hs); discriminate Hs).
      left. eexists. reflexivity.
    + destruct (proj1 (filterM_isCovenantName _) Hall) as (keep & Hk & _).
      rewrite Hk in He. discriminate He.
    + exact Hex.
  - intros Hex. exists TypeError.
    exact (proj2 (filterM_isCovenantName _) Hex).
Qed.

(* ================================================================== *)
(** * The order of numbers *)

Section NumberOrder.

Lemma SFcompare_antisym (a b : number) :
  SFcompare b a = option_map CompOpp (SFcompare a b).
Proof.
  destruct a as [sa | sa | | sa ma ea], b as [sb | sb | | sb mb eb]; simpl;
    try reflexivity;
    try (destruct sa; reflexivity); try (destruct sb; reflexivity);
    try (destruct sa, sb; reflexivity).
  destruct sa, sb; simpl; try reflexivity;
    rewrite (Z.compare_antisym ea eb);
    destruct (ea ?= eb)%Z; simpl; try reflexivity;
    rewrite (Pos.compare_cont_antisym ma mb Eq); simpl;
    try rewrite CompOpp_involutive; reflexivity.
Qed.

Lemma SFleb_trans (a b c : number) :
  SFleb a b = true -> SFleb b c = true -> SFleb a c = true.
Proof.
  unfold SFleb.
  destruct a as [sa | sa | | sa ma ea], b as [sb | sb | | sb mb eb],
           c as [sc | sc | | sc mc ec]; simpl;
    try discriminate; try reflexivity;
    try (destruct sa; simpl; try discriminate; try reflexivity);
    try (destruct sb; simpl; try discriminate; try reflexivity);
    try (destruct sc; simpl; try discriminate; try reflexivity).
  all: change (Pos.compare_cont Eq ?x ?y) with (Pos.compare x y).
  all: destruct (Z.compare_spec ea eb); destruct (Z.compare_spec eb ec);
       destruct (Z.compare_spec ea ec); simpl;
       try discriminate; try reflexivity; try lia.
  all: subst;
       destruct (Pos.compare_spec ma mb); destruct (Pos.compare_spec mb mc);
       destruct (Pos.compare_spec ma mc); simpl;
       try discriminate; try reflexivity; try lia.
Qed.

(** on numbers that are not NaN, one of [a < b], [b < a], [a <= b <= a]
    holds *)
Lemma lt_total (a b : number) :
  isNaN a = false -> isNaN b = false ->
  lt a b = false -> lt b a = false ->
  SFleb a b = true /\ SFleb b a = true.
Proof.
  unfold lt, SFltb, SFleb. intros Ha Hb.
  rewrite (SFcompare_antisym a b).
  destruct (SFcompare a b) as [[ | | ]|] eqn:Hc; simpl;
    try discriminate; try (split; reflexivity).
  destruct a, b; simpl in *; try discriminate;
    repeat match goal with s : bool |- _ => destruct s end; discriminate.
Qed.

Lemma lt_leb (a b : number) : lt a b = true -> SFleb a b = true.
Proof.
  unfold lt, SFltb, SFleb. destruct (SFcompare a b) as [[ | | ]|];
    try discriminate; reflexivity.
Qed.

Lemma leb_refl_notNaN (a : number) : isNaN a = false -> SFleb a a = true.
Proof.
  unfold SFleb. destruct a as [s | s | | s m e]; simpl; try discriminate;
    try reflexivity; intros _.
  - destruct s; reflexivity.
  - destruct s; rewrite Z.compare_refl;
      change (Pos.compare_cont Eq m m) with (Pos.compare m m);
      rewrite Pos.compare_refl; reflexivity.
Qed.

End NumberOrder.

(* ================================================================== *)
(** * Properties of the score colours and of the slack bar *)

(** X4.  A higher score never gets a lower band: if [y >= x] then the colour
    of [y] ranks at least as high as the colour of [x], for [getScoreMeta]
    and [getReadinessColorPill] alike; NaN gets the lowest band. *)
Theorem score_bands_monotone (x y : number) :
  ge y x = true ->
  rank (colourOf (accent (getScoreMeta x)))
  <= rank (colourOf (accent (getScoreMeta y)))
  /\ rank (colourOf (getReadinessColorPill x))
     <= rank (colourOf (getReadinessColorPill y)).
Proof.
  unfold ge, getScoreMeta, getReadinessColorPill, ge. intros Hxy.
  destruct (SFleb (of_Z 85) x) eqn:H85x.
  - rewrite (SFleb_trans _ _ _ H85x Hxy). split; apply Nat.le_refl.
  - destruct (SFleb (of_Z 70) x) eqn:H70x.
    + rewrite (SFleb_trans _ _ _ H70x Hxy).
      destruct (SFleb (of_Z 85) y); split; vm_compute; lia.
    + destruct (SFleb (of_Z 85) y); [split; vm_compute; lia|].
      destruct (SFleb (of_Z 70) y); split; vm_compute; lia.
Qed.

Lemma score_bands_monotone_witness :
  rank (colourOf (accent (getScoreMeta (parseFloat "69.5"))))
  <= rank (colourOf (accent (getScoreMeta (parseFloat "70")))).
Proof.
  apply (score_bands_monotone (parseFloat "69.5") (parseFloat "70")).
  reflexivity.
Defined.

(** X5.  The three colour rules of the report agree on every number, NaN
    included: the accent of [getScoreMeta], the pill of
    [getReadinessColorPill] and the ring are of the same colour family. *)
Theorem score_colours_agree (score : number) :
  colourOf (accent (getScoreMeta score)) = colourOf (getReadinessColorPill score)
  /\ colourOf (getReadinessColorPill score) = colourOf (readinessRingColor score)
  /\ colourOf (readinessRingColor score) <> None
  /\ (isNaN score = true -> colourOf (readinessRingColor score) = Some rose).
Proof.
  unfold getScoreMeta, getReadinessColorPill, readinessRingColor.
  destruct (ge score (of_Z 85)) eqn:H85;
    [|destruct (ge score (of_Z 70)) eqn:H70];
    repeat split; try discriminate;
    intros Hn; destruct score; try discriminate Hn; discriminate.
Qed.

Lemma mathMax_numbers (a b : number) :
  isNaN a = false -> isNaN b = false ->
  mathMax a b
  = if lt a b then b
    else if lt b a then a
    else match a, b with
         | S754_zero true, S754_zero false => b
         | _, _ => a
         end.
Proof. intros Ha Hb. unfold mathMax. rewrite Ha, Hb. reflexivity. Qed.

Lemma mathMin_numbers (a b : number) :
  isNaN a = false -> isNaN b = false ->
  mathMin a b
  = if lt a b then a
    else if lt b a then b
    else match a, b with
         | S754_zero false, S754_zero true => b
         | _, _ => a
         end.
Proof. intros Ha Hb. unfold mathMin. rewrite Ha, Hb. reflexivity. Qed.

(** X6.  The width of the slack bar is between 0 and 100 whenever the
    percentage is a number, and NaN exactly when the percentage is NaN; a
    percentage below 0 gives 0 and one above 100 gives 100. *)
Theorem slackBarWidth_clamped (calculation : Slack) :
  (isNaN (percentage calculation) = false ->
   ge (slackBarWidth calculation) (of_Z 0) = true
   /\ ge (of_Z 100) (slackBarWidth calculation) = true)
  /\ (isNaN (percentage calculation) = true ->
      isNaN (slackBarWidth calculation) = true)
  /\ (lt (percentage calculation) (of_Z 0) = true ->
      slackBarWidth calculation = of_Z 0)
  /\ (lt (of_Z 100) (percentage calculation) = true ->
      slackBarWidth calculation = of_Z 100).
Proof.
  unfold slackBarWidth. set (p := percentage calculation). clearbody p.
  assert (Hmax : isNaN p = false ->
                 isNaN (mathMax (of_Z 0) p) = false
                 /\ SFleb (of_Z 0) (mathMax (of_Z 0) p) = true
                 /\ (lt (of_Z 100) p = false ->
                     lt (of_Z 100) (mathMax (of_Z 0) p) = false)).
  { intros Hp. rewrite (mathMax_numbers (of_Z 0) p eq_refl Hp).
    destruct (lt (of_Z 0) p) eqn:H1.
    - split; [exact Hp|]. split; [apply lt_leb; exact H1 | tauto].
    - destruct (lt p (of_Z 0)) eqn:H2.
      + repeat split.
      + destruct (lt_total (of_Z 0) p eq_refl Hp H1 H2) as [Ha Hb].
        destruct p as [[|]| | |]; try discriminate; repeat split. }
  split; [|split; [|split]].
  - intros Hp. destruct (Hmax Hp) as (Hn & H0 & H100).
    set (q := mathMax (of_Z 0) p) in *. clearbody q.
    unfold ge. rewrite (mathMin_numbers (of_Z 100) q eq_refl Hn).
    destruct (lt (of_Z 100) q) eqn:H1; [split; reflexivity|].
    destruct (lt q (of_Z 100)) eqn:H2.
    + split; [exact H0 | apply lt_leb; exact H2].
    + destruct (lt_total (of_Z 100) q eq_refl Hn H1 H2) as [Ha Hb].
      replace (match of_Z 100 with
               | S754_zero false =>
                   match q with S754_zero true => q | _ => of_Z 100 end
               | _ => of_Z 100
               end) with (of_Z 100) by reflexivity.
      split; reflexivity.
  - intros Hp. unfold mathMin, mathMax. rewrite Hp.
    rewrite orb_true_r. reflexivity.
  - intros Hlt.
    assert (Hp : isNaN p = false) by (destruct p; try discriminate; reflexivity).
    rewrite (mathMax_numbers (of_Z 0) p eq_refl Hp).
    replace (lt (of_Z 0) p) with false.
    + rewrite Hlt. reflexivity.
    + unfold lt, SFltb in *. rewrite (SFcompare_antisym p (of_Z 0)).
      destruct (SFcompare p (of_Z 0)) as [[ | | ]|]; try discriminate; reflexivity.
  - intros Hlt.
    assert (Hp : isNaN p = false) by (destruct p; try discriminate; reflexivity).
    assert (H0 : lt (of_Z 0) p = true).
    { destruct p as [s | s | | s m e]; try discriminate Hlt;
        destruct s; try discriminate Hlt; reflexivity. }
    rewrite (mathMax_numbers (of_Z 0) p eq_refl Hp), H0.
    rewrite (mathMin_numbers (of_Z 100) p eq_refl Hp), Hlt. reflexivity.
Qed.

Lemma slackBarWidth_clamped_witness :
  exists r,
    calculateSlack "3.5" "7.5" "Leverage Ratio" = Some r
    /\ slackBarWidth r = of_Z 0.
Proof.
  eexists. split; [reflexivity|].
  apply (proj1 (proj2 (proj2 (slackBarWidth_clamped _)))). reflexivity.
Defined.

(* ================================================================== *)
(** * Properties of the CSV export *)

Section Reader.
Import Rfc4180.

Lemma read_quoted_body (s : string) :
  forall field row rows rest,
    read Quoted field row rows (doubleQuotes s ++ String dquote rest)
    = read QuoteSeen (field ++ s) row rows rest.
Proof.
  induction s as [|c s IH]; intros field row rows rest; simpl.
  - rewrite ?Ascii.eqb_refl, append_empty_r. reflexivity.
  - destruct (c =? dquote)%char eqn:Hc.
    + apply Ascii.eqb_eq in Hc. subst c. simpl.
      rewrite ?Ascii.eqb_refl. simpl. rewrite ?Ascii.eqb_refl.
      rewrite IH, append_assoc. reflexivity.
    + simpl. rewrite Hc, IH, append_assoc. reflexivity.
Qed.

Lemma read_quoted_field (s : string) row rows rest :
  read FieldStart EmptyString row rows (quotedText s ++ rest)
  = read QuoteSeen s row rows rest.
Proof.
  unfold quotedText. simpl. rewrite ?Ascii.eqb_refl.
  rewrite append_assoc. simpl. apply read_quoted_body.
Qed.

Lemma read_delimited (field : string) row rows rest :
  delimited rest ->
  read FieldStart field row rows rest = read QuoteSeen field row rows rest
  /\ read Unquoted field row rows rest = read QuoteSeen field row rows rest.
Proof.
  intros [-> | (r & [-> | ->])]; split; reflexivity.
Qed.

Lemma read_plain_body (t : string) :
  plain t = true ->
  forall field row rows rest,
    delimited rest ->
    read FieldStart field row rows (t ++ rest)
    = read QuoteSeen (field ++ t) row rows rest
    /\ read Unquoted field row rows (t ++ rest)
       = read QuoteSeen (field ++ t) row rows rest.
Proof.
  induction t as [|c t IH]; intros Hp field row rows rest Hd.
  - simpl. rewrite append_empty_r. apply read_delimited. exact Hd.
  - simpl in Hp. apply andb_true_iff in Hp. destruct Hp as [Hc Ht].
    apply negb_true_iff in Hc.
    apply orb_false_iff in Hc. destruct Hc as [Hc Hn].
    apply orb_false_iff in Hc. destruct Hc as [Hq Hc].
    simpl. rewrite Hq, Hc, Hn.
    destruct (IH Ht (field ++ String c EmptyString) row rows rest Hd) as [_ ->].
    rewrite append_assoc. split; reflexivity.
Qed.

Lemma read_cell (written text : string) row rows rest :
  encodes written text -> delimited rest ->
  read FieldStart EmptyString row rows (written ++ rest)
  = read QuoteSeen text row rows rest.
Proof.
  intros [[Hp ->] | ->] Hd.
  - exact (proj1 (read_plain_body written Hp EmptyString row rows rest Hd)).
  - apply read_quoted_field.
Qed.

Lemma read_row (written texts : list string) :
  Forall2 encodes written texts -> written <> [] ->
  forall row rows rest,
    delimited rest ->
    read FieldStart EmptyString row rows (join "," written ++ rest)
    = read QuoteSeen (last texts EmptyString) (row ++ removelast texts)%list
           rows rest.
Proof.
  induction 1 as [|w t ws ts Hwt Hall IH]; intros Hne row rows rest Hd;
    [contradiction Hne; reflexivity|].
  destruct Hall as [|w2 t2 ws' ts' Hwt2 Hall'].
  - simpl. rewrite app_nil_r. apply read_cell; assumption.
  - change (join "," (w :: w2 :: ws'))
      with (w ++ String comma (join "," (w2 :: ws'))).
    rewrite append_assoc.
    change ((String comma (join "," (w2 :: ws'))) ++ rest)
      with (String comma (join "," (w2 :: ws') ++ rest)).
    rewrite (read_cell w t); [|exact Hwt | right; eexists; left; reflexivity].
    change (read QuoteSeen t row rows (String comma (join "," (w2 :: ws') ++ rest)))
      with (read FieldStart EmptyString (row ++ [t])%list rows
              (join "," (w2 :: ws') ++ rest)).
    rewrite IH by (discriminate || assumption).
    change (last (t :: t2 :: ts') EmptyString) with (last (t2 :: ts') EmptyString).
    change (removelast (t :: t2 :: ts')) with (t :: removelast (t2 :: ts')).
    rewrite <- List.app_assoc. reflexivity.
Qed.

Lemma read_lines (written texts : list (list string)) :
  Forall2 (fun w t => Forall2 encodes w t /\ w <> []) written texts ->
  written <> [] ->
  forall rows,
    read FieldStart EmptyString [] rows
         (join (String newline EmptyString) (map (join ",") written))
    = Some (rows ++ texts)%list.
Proof.
  induction 1 as [|w t ws ts [Hwt Hne] Hall IH]; intros Hnil rows;
    [contradiction Hnil; reflexivity|].
  assert (Hlast : forall l : list string,
             l <> [] -> (removelast l ++ [last l EmptyString])%list = l).
  { intros l Hl. symmetry. apply app_removelast_last. exact Hl. }
  assert (Htne : t <> []).
  { intros ->. inversion Hwt. subst. contradiction Hne. reflexivity. }
  destruct Hall as [|w2 t2 ws' ts' H2 Hall'].
  - simpl. rewrite <- (append_empty_r (join "," w)).
    rewrite (read_row w t Hwt Hne [] rows EmptyString (or_introl eq_refl)).
    simpl. rewrite (Hlast t Htne). reflexivity.
  - change (map (join ",") (w :: w2 :: ws'))
      with (join "," w :: map (join ",") (w2 :: ws')).
    change (join (String newline EmptyString)
                 (join "," w :: map (join ",") (w2 :: ws')))
      with (join "," w
            ++ String newline
                 (join (String newline EmptyString) (map (join ",") (w2 :: ws')))).
    rewrite (read_row w t Hwt Hne [] rows);
      [|right; eexists; right; reflexivity].
    change (read QuoteSeen (last t EmptyString) ([] ++ removelast t)%list rows
              (String newline ?r))
      with (read FieldStart EmptyString []
              (rows ++ [([] ++ removelast t) ++ [last t EmptyString]])%list r).
    simpl app at 2. rewrite (Hlast t Htne).
    rewrite IH by (discriminate || constructor; assumption).
    rewrite <- List.app_assoc. reflexivity.
Qed.

End Reader.

Section CsvExport.

Variable toText : value -> completion string.

Lemma mapM_inv {A B : Type} (f : A -> completion B) (xs : list A) (ys : list B) :
  mapM f xs = Normal ys -> Forall2 (fun x y => f x = Normal y) xs ys.
Proof.
  revert ys. induction xs as [|x xs IH]; simpl; intros ys H.
  - injection H as <-. constructor.
  - destruct (f x) as [y|e] eqn:Hx; simpl in H; [|discriminate H].
    destruct (mapM f xs) as [ys'|e] eqn:Hxs; simpl in H; [|discriminate H].
    injection H as <-. constructor; [exact Hx | apply IH; reflexivity].
Qed.

Lemma mapM_normal {A B : Type} (f : A -> completion B) (xs : list A) :
  Forall (fun x => exists y, f x = Normal y) xs ->
  exists ys, mapM f xs = Normal ys.
Proof.
  induction 1 as [|x xs (y & Hy) _ (ys & IH)]; simpl.
  - eexists. reflexivity.
  - rewrite Hy. simpl. rewrite IH. simpl. eexists. reflexivity.
Qed.

Lemma quoted_inv (v : value) (q : string) :
  quoted v = Normal q -> v = VString (textOf v) /\ q = quotedText (textOf v).
Proof.
  destruct v; simpl; intros H; try discriminate H.
  injection H as <-. split; reflexivity.
Qed.

Lemma quoted_or_else_inv (v : value) (q : string) :
  quoted (or_else v (VString EmptyString)) = Normal q ->
  replaceable v = true /\ q = quotedText (textOf v).
Proof.
  unfold or_else, replaceable. destruct (truthy v) eqn:Ht.
  - intros H. destruct (quoted_inv _ _ H) as [Hv ->].
    rewrite Hv. split; reflexivity.
  - simpl. intros H. injection H as <-. split; [reflexivity|].
    destruct v; try reflexivity. simpl in Ht. destruct s; [reflexivity | discriminate Ht].
Qed.

(** the cells of a row, when the row can be built *)
Lemma csvRow_inv (clause : ClauseAnalysis) (cells : list cell) :
  csvRow clause = Normal cells ->
  cells = [Text (quotedText (textOf (name clause)));
           Raw (confidenceScore clause);
           Text (if truthy (reviewRequired clause) then "YES" else "NO");
           Text (quotedText (textOf (Types.summary clause)));
           Text (quotedText (textOf (reason clause)));
           Text (quotedText (textOf (standardBenchmark (lmaComparison clause))));
           Text (quotedText (textOf (deviations (lmaComparison clause))));
           Text (quotedText (textOf (impact (lmaComparison clause))))]
  /\ isString (name clause) = true
  /\ isString (Types.summary clause) = true
  /\ isString (reason clause) = true
  /\ replaceable (standardBenchmark (lmaComparison clause)) = true
  /\ replaceable (deviations (lmaComparison clause)) = true
  /\ replaceable (impact (lmaComparison clause)) = true.
Proof.
  unfold csvRow.
  destruct (quoted (name clause)) as [q1|] eqn:H1; simpl; [|discriminate].
  destruct (quoted (Types.summary clause)) as [q2|] eqn:H2; simpl; [|discriminate].
  destruct (quoted (reason clause)) as [q3|] eqn:H3; simpl; [|discriminate].
  destruct (quoted (or_else (standardBenchmark _) _)) as [q4|] eqn:H4;
    simpl; [|discriminate].
  destruct (quoted (or_else (deviations _) _)) as [q5|] eqn:H5;
    simpl; [|discriminate].
  destruct (quoted (or_else (impact _) _)) as [q6|] eqn:H6;
    simpl; [|discriminate].
  intros H. injection H as <-.
  destruct (quoted_inv _ _ H1) as [E1 ->].
  destruct (quoted_inv _ _ H2) as [E2 ->].
  destruct (quoted_inv _ _ H3) as [E3 ->].
  destruct (quoted_or_else_inv _ _ H4) as [E4 ->].
  destruct (quoted_or_else_inv _ _ H5) as [E5 ->].
  destruct (quoted_or_else_inv _ _ H6) as [E6 ->].
  rewrite E1, E2, E3. simpl. repeat split; assumption.
Qed.

Lemma csvRow_normal (clause : ClauseAnalysis) :
  isString (name clause) = true ->
  isString (Types.summary clause) = true ->
  isString (reason clause) = true ->
  replaceable (standardBenchmark (lmaComparison clause)) = true ->
  replaceable (deviations (lmaComparison clause)) = true ->
  replaceable (impact (lmaComparison clause)) = true ->
  exists cells, csvRow clause = Normal cells.
Proof.
  unfold csvRow, replaceable, or_else.
  destruct (name clause); try discriminate.
  destruct (Types.summary clause); try discriminate.
  destruct (reason clause); try discriminate.
  intros _ _ _ H4 H5 H6. simpl.
  destruct (truthy (standardBenchmark _)) eqn:T4;
    [destruct (standardBenchmark _); try discriminate H4|]; simpl;
  (destruct (truthy (deviations _)) eqn:T5;
    [destruct (deviations _); try discriminate H5|]); simpl;
  (destruct (truthy (impact _)) eqn:T6;
    [destruct (impact _); try discriminate H6|]); simpl;
  eexists; reflexivity.
Qed.

(** a line of the export and the row of texts it encodes *)
Lemma exported_line (clause : ClauseAnalysis) (cells : list cell) (line : string) :
  csvRow clause = Normal cells ->
  joinRow toText cells = Normal line ->
  exists score written,
    cellText toText (Raw (confidenceScore clause)) = Normal score
    /\ line = join "," written
    /\ written <> []
    /\ (plain score = true -> Forall2 encodes written (exportedRow clause score)).
Proof.
  intros Hrow Hjoin.
  destruct (csvRow_inv clause cells Hrow) as (-> & _).
  unfold joinRow in Hjoin. simpl in Hjoin.
  destruct (if isNullish (confidenceScore clause) then Normal EmptyString
            else toText (confidenceScore clause)) as [score|e] eqn:Hs;
    simpl in Hjoin; [|discriminate Hjoin].
  injection Hjoin as <-.
  exists score.
  exists [quotedText (textOf (name clause)); score;
          if truthy (reviewRequired clause) then "YES" else "NO";
          quotedText (textOf (Types.summary clause));
          quotedText (textOf (reason clause));
          quotedText (textOf (standardBenchmark (lmaComparison clause)));
          quotedText (textOf (deviations (lmaComparison clause)));
          quotedText (textOf (impact (lmaComparison clause)))].
  split; [exact Hs|]. split; [reflexivity|].
  split; [discriminate|].
  intros Hp. unfold exportedRow.
  repeat (apply Forall2_cons || apply Forall2_nil);
    try (right; reflexivity).
  - left. split; [exact Hp | reflexivity].
  - left. split; [destruct (truthy (reviewRequired clause)); reflexivity | reflexivity].
Qed.

Lemma exported_lines (clauses : list ClauseAnalysis) (rows : list (list cell))
    (lines : list string) :
  (forall clause t, In clause clauses ->
     cellText toText (Raw (confidenceScore clause)) = Normal t -> plain t = true) ->
  Forall2 (fun clause cells => csvRow clause = Normal cells) clauses rows ->
  Forall2 (fun cells line => joinRow toText cells = Normal line) rows lines ->
  exists written table,
    lines = map (join ",") written
    /\ Forall2 (fun w t => Forall2 encodes w t /\ w <> []) written table
    /\ Forall2 (fun clause row =>
                  exists score,
                    cellText toText (Raw (confidenceScore clause)) = Normal score
                    /\ row = exportedRow clause score) clauses table.
Proof.
  intros Hplain Hrows. revert lines.
  induction Hrows as [|clause cells clauses rows Hrow _ IH]; intros lines Hlines.
  - inversion Hlines. subst. exists [], [].
    split; [reflexivity|]. split; constructor.
  - inversion Hlines as [|? line ? lines' Hline Hrest]. subst.
    destruct (exported_line clause cells line Hrow Hline)
      as (score & w & Hs & -> & Hne & Henc).
    destruct (IH (fun c t Hin => Hplain c t (or_intror Hin)) lines' Hrest)
      as (written & table & -> & Hall & Hrel).
    exists (w :: written), (exportedRow clause score :: table).
    split; [reflexivity|]. split.
    + constructor; [|exact Hall]. split; [|exact Hne].
      apply Henc. apply (Hplain clause score (or_introl eq_refl) Hs).
    + constructor; [|exact Hrel]. exists score. split; [exact Hs | reflexivity].
Qed.

Lemma headers_plain : Forall2 encodes headers headers.
Proof.
  repeat (apply Forall2_cons || apply Forall2_nil); left; split; reflexivity.
Qed.

End CsvExport.

(** X7.  The text written by [handleExportCSV] reads back, by the rule of
    RFC 4180, as the header row followed by one row of eight texts per
    clause, each text exactly the clause's field, whatever quotes, commas and
    line feeds the fields contain.  The text of each confidence score must
    itself be free of those three characters, as the text of a number is. *)
Theorem csv_round_trip (toText : value -> completion string)
    (result : AnalysisResult) (content : string) :
  (forall clause t, In clause (confidenceAnalysis result) ->
     cellText toText (Raw (confidenceScore clause)) = Normal t ->
     plain t = true) ->
  csvContent toText result = Normal content ->
  exists table,
    Rfc4180.parse content = Some (headers :: table)
    /\ Forall2 (fun clause row =>
                  exists score,
                    cellText toText (Raw (confidenceScore clause)) = Normal score
                    /\ row = exportedRow clause score)
               (confidenceAnalysis result) table.
Proof.
  intros Hplain Hcsv. unfold csvContent in Hcsv.
  destruct (mapM csvRow (confidenceAnalysis result)) as [rows|e] eqn:Hrows;
    simpl in Hcsv; [|discriminate Hcsv].
  destruct (mapM (joinRow toText) rows) as [lines|e] eqn:Hlines;
    simpl in Hcsv; [|discriminate Hcsv].
  injection Hcsv as <-.
  destruct (exported_lines toText _ rows lines Hplain
              (mapM_inv _ _ _ Hrows) (mapM_inv _ _ _ Hlines))
    as (written & table & -> & Hall & Hrel).
  exists table. split; [|exact Hrel].
  unfold Rfc4180.parse.
  change (join "," headers :: map (join ",") written)
    with (map (join ",") (headers :: written)).
  rewrite (read_lines (headers :: written) (headers :: table)).
  - reflexivity.
  - constructor; [|exact Hall]. split; [exact headers_plain | discriminate].
  - discriminate.
Qed.

(** X8.  [handleExportCSV] produces its text exactly when every clause can be
    written: name, summary and reason are strings, each benchmark field is a
    string or falsy, and the score converts to text.  Otherwise it throws and
    nothing is downloaded. *)
Theorem csvContent_defined (toText : value -> completion string)
    (result : AnalysisResult) :
  (exists content, csvContent toText result = Normal content)
  <-> Forall (exportable toText) (confidenceAnalysis result).
Proof.
  unfold csvContent. split.
  - intros (content & H).
    destruct (mapM csvRow (confidenceAnalysis result)) as [rows|e] eqn:Hrows;
      simpl in H; [|discriminate H].
    destruct (mapM (joinRow toText) rows) as [lines|e] eqn:Hlines;
      simpl in H; [|discriminate H].
    clear H. apply mapM_inv in Hrows. apply mapM_inv in Hlines.
    revert lines Hlines.
    induction Hrows as [|clause cells clauses rows Hrow _ IH];
      intros lines Hlines; [constructor|].
    inversion Hlines as [|? line ? lines' Hline Hrest]. subst.
    constructor; [|exact (IH lines' Hrest)].
    destruct (csvRow_inv clause cells Hrow) as (_ & H1 & H2 & H3 & H4 & H5 & H6).
    destruct (exported_line toText clause cells line Hrow Hline)
      as (score & _ & Hs & _).
    repeat split; try assumption. exists score. exact Hs.
  - intros Hall.
    assert (H : exists rows lines,
               mapM csvRow (confidenceAnalysis result) = Normal rows
               /\ mapM (joinRow toText) rows = Normal lines).
    { induction Hall as [|clause clauses Hc _ (rows & lines & Hr & Hl)].
      - exists [], []. split; reflexivity.
      - destruct Hc as (H1 & H2 & H3 & H4 & H5 & H6 & (t & Ht)).
        destruct (csvRow_normal clause H1 H2 H3 H4 H5 H6) as (cells & Hcells).
        destruct (csvRow_inv clause cells Hcells) as (Heq & _).
        assert (Hj : exists line, joinRow toText cells = Normal line).
        { rewrite Heq. unfold joinRow. simpl. simpl in Ht. rewrite Ht. simpl.
          eexists. reflexivity. }
        destruct Hj as (line & Hj).
        exists (cells :: rows), (line :: lines). simpl.
        rewrite Hcells, Hr. simpl. rewrite Hj, Hl. split; reflexivity. }
    destruct H as (rows & lines & -> & Hl). simpl. rewrite Hl. simpl.
    eexists. reflexivity.
Qed.

(* ================================================================== *)
(** * Properties of the grounding sources *)

Section Sources.

Lemma hasWeb_nullish (chunk : value) :
  isNullish chunk = true -> hasWeb chunk = Throw TypeError.
Proof. destruct chunk; simpl; intros H; try discriminate H; reflexivity. Qed.

Lemma hasWeb_normal (chunk : value) :
  isNullish chunk = false -> hasWeb chunk = Normal (truthy (field chunk "web")).
Proof. destruct chunk; simpl; intros H; try discriminate H; reflexivity. Qed.

Lemma toSource_normal (chunk : value) :
  isNullish chunk = false ->
  truthy (field chunk "web") = true ->
  toSource chunk
  = Normal {| title := or_else (field (field chunk "web") "title")
                               (VString "Source");
              uri := field (field chunk "web") "uri" |}.
Proof.
  intros Hn Ht. unfold toSource.
  assert (Hget : get chunk "web" = Normal (field chunk "web"))
    by (destruct chunk; simpl in *; try discriminate Hn; reflexivity).
  rewrite Hget. simpl.
  destruct (field chunk "web"); simpl in *; try discriminate Ht; reflexivity.
Qed.

(** the extraction on an array without [null] entries *)
Lemma sourcesOf_normal (items : list value) :
  existsb isNullish items = false ->
  sourcesOf (VArray items)
  = Normal (map (fun chunk =>
                   {| title := or_else (field (field chunk "web") "title")
                                       (VString "Source");
                      uri := field (field chunk "web") "uri" |})
                (filter (fun chunk => truthy (field chunk "web")) items)).
Proof.
  intros Hex. unfold sourcesOf.
  assert (Hf : filterM hasWeb items
               = Normal (filter (fun chunk => truthy (field chunk "web")) items)).
  { induction items as [|chunk items IH]; [reflexivity|].
    simpl in Hex. apply orb_false_iff in Hex. destruct Hex as [Hc Hrest].
    simpl. rewrite (hasWeb_normal chunk Hc). simpl. rewrite (IH Hrest).
    reflexivity. }
  rewrite Hf. simpl.
  induction items as [|chunk items IH]; [reflexivity|].
  simpl in Hex. apply orb_false_iff in Hex. destruct Hex as [Hc Hrest].
  assert (Hf' : filterM hasWeb items
                = Normal (filter (fun chunk => truthy (field chunk "web")) items)).
  { clear IH Hf. induction items as [|x items IH]; [reflexivity|].
    simpl in Hrest. apply orb_false_iff in Hrest. destruct Hrest as [Hx Hr].
    simpl. rewrite (hasWeb_normal x Hx). simpl. rewrite (IH Hr). reflexivity. }
  specialize (IH Hrest Hf').
  simpl. destruct (truthy (field chunk "web")) eqn:Ht; [|exact IH].
  simpl. rewrite (toSource_normal chunk Hc Ht). simpl. rewrite IH. reflexivity.
Qed.

Lemma sourcesOf_nullish_item (items : list value) :
  existsb isNullish items = true -> sourcesOf (VArray items) = Throw TypeError.
Proof.
  intros Hex. unfold sourcesOf.
  assert (Hf : filterM hasWeb items = Throw TypeError).
  { induction items as [|chunk items IH]; [discriminate Hex|].
    simpl in Hex. simpl. destruct (isNullish chunk) eqn:Hc.
    - rewrite (hasWeb_nullish chunk Hc). reflexivity.
    - rewrite (hasWeb_normal chunk Hc). simpl. rewrite (IH Hex). reflexivity. }
  rewrite Hf. reflexivity.
Qed.

(** every extracted source has a title that is truthy *)
Lemma sourcesOf_titles (chunks : value) (found : list Source) :
  sourcesOf chunks = Normal found ->
  Forall (fun s => truthy (title s) = true) found.
Proof.
  intros H.
  destruct chunks as [ | | b | n | s | items | props]; try discriminate H.
  destruct (existsb isNullish items) eqn:Hex;
    [rewrite (sourcesOf_nullish_item items Hex) in H; discriminate H|].
  rewrite (sourcesOf_normal items Hex) in H. injection H as <-.
  apply Forall_map. apply Forall_forall. intros chunk _. simpl.
  unfold or_else.
  destruct (truthy (field (field chunk "web") "title")) eqn:Ht;
    [exact Ht | reflexivity].
Qed.

End Sources.

(** X9.  The extraction of sources fails, with a TypeError, exactly when the
    chunks are not an array or the array holds [undefined] or [null]; when
    it succeeds every source has a truthy title (the text "Source" where the
    page has none), and there are no more sources than chunks. *)
Theorem sourcesOf_outcome (chunks : value) :
  (sourcesOf chunks = Throw TypeError
   <-> (forall items, chunks <> VArray items)
       \/ exists items, chunks = VArray items /\ existsb isNullish items = true)
  /\ (forall found, sourcesOf chunks = Normal found ->
      Forall (fun s => truthy (title s) = true) found
      /\ exists items, chunks = VArray items
                       /\ List.length found <= List.length items).
Proof.
  split.
  - split.
    + intros H. destruct chunks as [ | | b | n | s | items | props];
        try (left; intros items; discriminate).
      right. exists items. split; [reflexivity|].
      destruct (existsb isNullish items) eqn:Hex; [reflexivity|].
      rewrite (sourcesOf_normal items Hex) in H. discriminate H.
    + intros [Hno | (items & -> & Hex)].
      * destruct chunks; try reflexivity. contradiction (Hno items). reflexivity.
      * apply sourcesOf_nullish_item. exact Hex.
  - intros found H.
    destruct chunks as [ | | b | n | s | items | props]; try discriminate H.
    destruct (existsb isNullish items) eqn:Hex;
      [rewrite (sourcesOf_nullish_item items Hex) in H; discriminate H|].
    rewrite (sourcesOf_normal items Hex) in H. injection H as <-.
    split.
    + apply Forall_map. apply Forall_forall. intros chunk _. simpl.
      unfold or_else.
      destruct (truthy (field (field chunk "web") "title")) eqn:Ht;
        [exact Ht | reflexivity].
    + exists items. split; [reflexivity|].
      rewrite length_map. apply filter_length_le.
Qed.

(** X10.  A response without grounding (no candidates, an empty candidate
    list, a first candidate without metadata, or metadata without chunks)
    is not an error for [fetchMarketIntelligence]: its text is returned with
    an empty list of sources. *)
Theorem fetchMarketIntelligence_without_grounding (response : value) :
  isNullish response = false ->
  isNullish (field response "candidates") = true
  \/ field response "candidates" = VArray []
  \/ (exists candidate rest,
        field response "candidates" = VArray (candidate :: rest)
        /\ (isNullish candidate = true
            \/ isNullish (field candidate "groundingMetadata") = true
            \/ truthy (field (field candidate "groundingMetadata")
                             "groundingChunks") = false)) ->
  fetchMarketIntelligence (Normal response)
  = Normal {| summary := field response "text"; sources := [] |}.
Proof.
  intros Hr Hcases.
  assert (Hget : forall k, get response k = Normal (field response k))
    by (intros k; destruct response; simpl in *; try discriminate Hr; reflexivity).
  assert (Hchunks : groundingChunks response = Normal (VArray [])).
  { unfold groundingChunks. rewrite Hget. simpl.
    destruct Hcases as [Hn | [-> | (cand & rest & -> & Hc)]].
    - destruct (field response "candidates"); simpl in *;
        try discriminate Hn; reflexivity.
    - reflexivity.
    - simpl. unfold optionalGet at 2.
      destruct (isNullish cand) eqn:Hcn; [reflexivity|].
      destruct Hc as [Hc | [Hc | Hc]]; [discriminate Hc | |].
      + unfold optionalGet. rewrite Hc. reflexivity.
      + unfold optionalGet.
        destruct (isNullish (field cand "groundingMetadata")); [reflexivity|].
        unfold or_else. rewrite Hc. reflexivity. }
  unfold fetchMarketIntelligence. simpl. rewrite Hchunks. simpl.
  rewrite Hget. reflexivity.
Qed.

Lemma fetchMarketIntelligence_without_grounding_witness :
  fetchMarketIntelligence
    (Normal (VObject [("text", VString "Margins tightened.");
                      ("candidates", VArray [VObject []])]))
  = Normal {| summary := VString "Margins tightened."; sources := [] |}.
Proof.
  apply (fetchMarketIntelligence_without_grounding
           (VObject [("text", VString "Margins tightened.");
                     ("candidates", VArray [VObject []])])).
  - reflexivity.
  - right. right. exists (VObject []), []. split; [reflexivity|].
    right. left. reflexivity.
Defined.

(** X11.  The two copies of the news fetch differ on a response without
    text: [handleFetchNews] substitutes "No intelligence found.", so its
    summary is never falsy, while [fetchMarketIntelligence] passes the
    missing text on, and the Market Pulse paragraphs then throw. *)
Theorem summary_of_response_without_text
    (toText : value -> completion string) (result : AnalysisResult)
    (response : value) :
  (forall news, fetchNews toText result (Normal response) = Normal news ->
     truthy (summary news) = true
     /\ (truthy (field response "text") = false ->
         summary news = VString "No intelligence found."))
  /\ (forall intel, fetchMarketIntelligence (Normal response) = Normal intel ->
        summary intel = field response "text"
        /\ (isString (field response "text") = false ->
            pulseParagraphs intel = Throw TypeError)).
Proof.
  split.
  - intros news H. unfold fetchNews in H.
    destruct (get (overview result) "facilityType") as [ft|]; simpl in H;
      [|discriminate H].
    destruct (toText ft); simpl in H; [|discriminate H].
    destruct (get response "text") as [text|] eqn:Ht; simpl in H;
      [|discriminate H].
    assert (Htext : text = field response "text")
      by (destruct response; simpl in Ht; try discriminate Ht;
          injection Ht as <-; reflexivity).
    destruct (groundingChunks response) as [chunks|]; simpl in H;
      [|discriminate H].
    destruct (sourcesOf chunks); simpl in H; [|discriminate H].
    injection H as <-. simpl. subst text. unfold or_else.
    destruct (truthy (field response "text")) eqn:E; split;
      try reflexivity; try assumption; discriminate.
  - intros intel H. unfold fetchMarketIntelligence in H. simpl in H.
    destruct (groundingChunks response) as [chunks|]; simpl in H;
      [|discriminate H].
    destruct (sourcesOf chunks); simpl in H; [|discriminate H].
    destruct (get response "text") as [text|] eqn:Ht; simpl in H;
      [|discriminate H].
    assert (Htext : text = field response "text")
      by (destruct response; simpl in Ht; try discriminate Ht;
          injection Ht as <-; reflexivity).
    injection H as <-. simpl. subst text. split; [reflexivity|].
    unfold pulseParagraphs. simpl.
    destruct (field response "text"); simpl; intros Hs;
      try discriminate Hs; reflexivity.
Qed.

Lemma summary_of_response_without_text_witness :
  exists intel,
    fetchMarketIntelligence (Normal (VObject [("candidates", VArray [])]))
    = Normal intel
    /\ pulseParagraphs intel = Throw TypeError.
Proof.
  eexists. split; [reflexivity|].
  apply (proj2 (summary_of_response_without_text
                  (fun _ => Normal EmptyString)
                  {| overview := VUndefined; confidenceAnalysis := [];
                     riskAssessment := {| overallRating := VUndefined;
                                          riskSummary := VUndefined |};
                     commercialSummary := VUndefined;
                     dealReadiness := VUndefined; rawText := EmptyString |}
                  (VObject [("candidates", VArray [])]))
               _ eq_refl).
  reflexivity.
Defined.

(** X12.  Once the report is shown, so that [result.overview] can be read
    from, the news button ends in every case with the fetching flag cleared,
    and no failure is surfaced: a failed request, or grounding chunks that
    cannot be read, leave the news and the panel as they were.  The news is
    replaced exactly when the prompt can be written, the response can be
    read and the sources can be extracted; the news then shown has a truthy
    summary, every source a truthy title, and the panel is open. *)
Theorem handleFetchNews_outcome
    (toText : value -> completion string) (result : AnalysisResult)
    (response : completion value) (st : NewsState) :
  isNullish (overview result) = false ->
  let st' := handleFetchNews toText result response st in
  let unchanged :=
    newsData st' = newsData st /\ isNewsCollapsed st' = isNewsCollapsed st in
  isFetchingNews st' = false
  /\ (unchanged
      \/ exists news,
           newsData st' = Some news /\ isNewsCollapsed st' = false
           /\ truthy (summary news) = true
           /\ Forall (fun s => truthy (title s) = true) (sources news))
  /\ (forall e, response = Throw e -> unchanged)
  /\ (forall r chunks,
        response = Normal r -> isNullish r = false ->
        groundingChunks r = Normal chunks ->
        (forall e, sourcesOf chunks = Throw e -> unchanged)
        /\ (forall prompt found,
              toText (field (overview result) "facilityType") = Normal prompt ->
              sourcesOf chunks = Normal found ->
              newsData st'
              = Some {| summary := or_else (field r "text")
                                           (VString "No intelligence found.");
                        sources := found |}
              /\ isNewsCollapsed st' = false)).
Proof.
  intros Hov. cbv zeta. unfold handleFetchNews, fetchNews.
  assert (Hft : get (overview result) "facilityType"
                = Normal (field (overview result) "facilityType"))
    by (destruct (overview result); simpl in *; try discriminate Hov; reflexivity).
  rewrite Hft. cbn [bind].
  destruct (toText (field (overview result) "facilityType")) as [prompt|e0];
    cbn [bind].
  2:{ cbn. repeat split; auto; intros; discriminate. }
  destruct response as [r|e]; cbn [bind].
  2:{ cbn. repeat split; auto; intros; discriminate. }
  destruct (get r "text") as [text|e1] eqn:Ht; cbn [bind].
  2:{ assert (Hr : isNullish r = true)
        by (destruct r; simpl in Ht; try discriminate Ht; reflexivity).
      cbn. split; [reflexivity|]. split; [left; split; reflexivity|].
      split; [intros; split; reflexivity|].
      intros r' chunks Hr' Hnn. injection Hr' as <-. congruence. }
  assert (Htext : text = field r "text")
    by (destruct r; simpl in Ht; try discriminate Ht;
        injection Ht as <-; reflexivity).
  assert (Hnn : isNullish r = false)
    by (destruct r; simpl in Ht; try discriminate Ht; reflexivity).
  subst text.
  destruct (groundingChunks r) as [chunks|e2] eqn:Hg; cbn [bind].
  2:{ cbn. split; [reflexivity|]. split; [left; split; reflexivity|].
      split; [intros; split; reflexivity|].
      intros r' chunks Hr' _ Hg'. injection Hr' as <-. congruence. }
  destruct (sourcesOf chunks) as [found|e3] eqn:Hs; cbn [bind].
  - cbn. split; [reflexivity|]. split.
    + right. eexists. split; [reflexivity|]. split; [reflexivity|]. cbn. split.
      * unfold or_else.
        destruct (truthy (field r "text")) eqn:E; [exact E | reflexivity].
      * exact (sourcesOf_titles chunks found Hs).
    + split; [intros e He; discriminate He|].
      intros r' chunks' Hr' _ Hg'. injection Hr' as <-.
      rewrite Hg in Hg'. injection Hg' as <-. split.
      * intros e He. congruence.
      * intros p f _ Hf. rewrite Hs in Hf. injection Hf as <-.
        split; reflexivity.
  - cbn. split; [reflexivity|]. split; [left; split; reflexivity|].
    split; [intros; split; reflexivity|].
    intros r' chunks' Hr' _ Hg'. injection Hr' as <-.
    rewrite Hg in Hg'. injection Hg' as <-. split.
    + intros; split; reflexivity.
    + intros p f _ Hf. congruence.
Qed.

(* ================================================================== *)
(** * Properties of the start page *)

Section Blank.

Lemma reverse_app (a b : string) : reverse (a ++ b) = reverse b ++ reverse a.
Proof.
  induction a as [|c a IH]; simpl.
  - rewrite append_empty_r. reflexivity.
  - rewrite IH, append_assoc. reflexivity.
Qed.

Lemma reverse_empty (s : string) : reverse s = EmptyString -> s = EmptyString.
Proof.
  destruct s as [|c s]; [reflexivity|]. simpl.
  destruct (reverse s); discriminate.
Qed.

Lemma trimStart_ends_with (a : string) (c : ascii) :
  isWhiteSpace c = false ->
  trimStart (a ++ String c EmptyString) <> EmptyString.
Proof.
  intros Hc. induction a as [|d a IH]; simpl.
  - rewrite Hc. discriminate.
  - destruct (isWhiteSpace d); [exact IH | discriminate].
Qed.

Lemma trimStart_head (s : string) (c : ascii) (r : string) :
  trimStart s = String c r -> isWhiteSpace c = false.
Proof.
  induction s as [|d s IH]; simpl; [discriminate|].
  destruct (isWhiteSpace d) eqn:Hd; [exact IH|].
  intros H. injection H as <- _. exact Hd.
Qed.

(** [!s.trim()] holds exactly for text of white space only *)
Lemma trim_truthy (s : string) :
  JSString.truthy (trim s) = negb (blank s).
Proof.
  unfold blank, trim, trimEnd.
  destruct (trimStart s) as [|c r] eqn:Ht; [reflexivity|].
  pose proof (trimStart_head s c r Ht) as Hc.
  simpl reverse.
  destruct (reverse (trimStart (reverse r ++ String c EmptyString))) eqn:Hr;
    [|reflexivity].
  apply reverse_empty in Hr.
  contradiction (trimStart_ends_with (reverse r) c Hc Hr).
Qed.

End Blank.

(** X13.  [handleAnalyze] does nothing on text of white space only.  On any
    other text it ends with the loading flag cleared.  When the client of
    [analyzeLoanDocument] cannot be constructed, which happens before its
    [try], the result is untouched and the error shown is the message of
    that exception, or the fallback of the handler when the message is
    empty.  When the client is constructed, a payload the normaliser accepts
    sets the result, whose [rawText] is the text analysed, and clears the
    error; every other outcome of the request leaves the result untouched
    and shows the fixed message of [analyzeLoanDocument]. *)
Theorem handleAnalyze_outcome (engineMessage : exception -> string)
    (client : completion unit) (parsed : completion value) (st : State) :
  let st' := handleAnalyze engineMessage client parsed st in
  (blank (inputText st) = true -> st' = st)
  /\ (blank (inputText st) = false ->
      isLoading st' = false
      /\ inputText st' = inputText st
      /\ (forall e, client = Throw e ->
            result st' = result st
            /\ (messageOf engineMessage e <> "" ->
                error st' = Some (messageOf engineMessage e))
            /\ (messageOf engineMessage e = "" ->
                error st' = Some "Institutional API connection failed."))
      /\ (forall u, client = Normal u ->
            (forall data, parsed = Normal data -> accepted data ->
               exists analysis,
                 result st' = Some analysis
                 /\ rawText analysis = inputText st
                 /\ error st' = None)
            /\ ((forall data, parsed = Normal data -> ~ accepted data) ->
                result st' = result st
                /\ error st' = Some failureMessage))).
Proof.
  cbv zeta. unfold handleAnalyze. rewrite trim_truthy, negb_involutive. split.
  - intros ->. reflexivity.
  - intros ->. unfold analyzeLoanDocumentCall.
    destruct client as [u|e].
    + unfold analyzeLoanDocument.
      destruct (bind parsed (fun data => normalize data (inputText st)))
        as [analysis|e] eqn:Hn; cbn.
      * split; [reflexivity|]. split; [reflexivity|].
        destruct parsed as [data|e]; simpl in Hn; [|discriminate Hn].
        split; [intros e He; discriminate He|].
        intros _ _. split.
        -- intros data' Hd _. injection Hd as <-.
           exists analysis. split; [reflexivity|]. split; [|reflexivity].
           destruct (normalize_inv _ _ _ Hn) as (raw & cas & _ & _ & _ & _ & ->).
           reflexivity.
        -- intros Hno. exfalso. apply (Hno data eq_refl).
           destruct (normalize_inv _ _ _ Hn) as (raw & cas & Hcl & Hex & _ & Hra & _).
           split; [exists raw; split; assumption | assumption].
      * split; [reflexivity|]. split; [reflexivity|].
        split; [intros e' He; discriminate He|].
        intros _ _. split; [|intros _; split; reflexivity].
        intros data -> Hacc. simpl in Hn.
        destruct (normalize_accepted data (inputText st) Hacc) as (r & Hr).
        congruence.
    + cbn. split; [reflexivity|]. split; [reflexivity|].
      split; [|intros u Hu; discriminate Hu].
      intros e' He. injection He as <-. split; [reflexivity|].
      destruct (messageOf engineMessage e); split; intros H;
        try reflexivity; try discriminate H; contradiction H; reflexivity.
Qed.

Lemma handleAnalyze_outcome_witness :
  (let st' := handleAnalyze (fun _ => EmptyString) (Normal tt)
                (Throw SyntaxError) Samples2.typed in
   isLoading st' = false /\ result st' = None
   /\ error st' = Some failureMessage)
  /\ (let st' := handleAnalyze (fun _ => EmptyString)
                   (Throw (Error "No API key.")) (Normal Samples.wellFormed)
                   Samples2.typed in
      isLoading st' = false /\ result st' = None
      /\ error st' = Some "No API key.")
  /\ (let st' := handleAnalyze (fun _ => EmptyString) (Normal tt)
                   (Normal Samples.wellFormed) Samples2.typed in
      exists analysis, result st' = Some analysis
                       /\ rawText analysis = Samples.document
                       /\ error st' = None).
Proof.
  split; [|split]; cbv zeta.
  - destruct (proj2 (handleAnalyze_outcome (fun _ => EmptyString) (Normal tt)
                       (Throw SyntaxError) Samples2.typed) eq_refl)
      as (Hl & _ & _ & Hok).
    destruct (proj2 (Hok tt eq_refl)) as [Hr He].
    + intros data Hd. discriminate Hd.
    + split; [exact Hl|]. split; [exact Hr | exact He].
  - destruct (proj2 (handleAnalyze_outcome (fun _ => EmptyString)
                       (Throw (Error "No API key.")) (Normal Samples.wellFormed)
                       Samples2.typed) eq_refl)
      as (Hl & _ & Hthrow & _).
    destruct (Hthrow _ eq_refl) as (Hr & He & _).
    split; [exact Hl|]. split; [exact Hr|].
    apply He. discriminate.
  - destruct (proj2 (handleAnalyze_outcome (fun _ => EmptyString) (Normal tt)
                       (Normal Samples.wellFormed) Samples2.typed) eq_refl)
      as (_ & _ & _ & Hok).
    apply (proj1 (Hok tt eq_refl) Samples.wellFormed eq_refl).
    split; [eexists; split; reflexivity | reflexivity].
Defined.

(** X14.  The Market Pulse panel shows at most six paragraphs; each is a line
    of the summary that is not blank, and a summary that is not a string
    makes the panel throw. *)
Theorem pulseParagraphs_shape (intel : MarketNews) :
  (forall ps, pulseParagraphs intel = Normal ps ->
     List.length ps <= 6
     /\ exists s, summary intel = VString s
                  /\ forall p, In p ps ->
                       In p (split newline s) /\ blank p = false)
  /\ (isString (summary intel) = false ->
      pulseParagraphs intel = Throw TypeError).
Proof.
  unfold pulseParagraphs. split.
  - intros ps H. destruct (summary intel) as [ | | b | n | s | items | props];
      try discriminate H.
    unfold slice0 in H.
    remember (filter (fun p => JSString.truthy (trim p)) (split newline s))
      as lines eqn:Hlines.
    assert (Hps : ps = firstn 6 lines) by congruence.
    clear H. subst ps lines. split.
    + apply firstn_le_length.
    + exists s. split; [reflexivity|]. intros p Hin.
      assert (Hin' : In p (filter (fun p => JSString.truthy (trim p))
                                  (split newline s))).
      { rewrite <- (firstn_skipn 6 (filter _ _)). apply in_or_app.
        left. exact Hin. }
      clear Hin. rename Hin' into Hin.
      apply filter_In in Hin. destruct Hin as [Hin Hp].
      split; [exact Hin|].
      rewrite trim_truthy in Hp. apply negb_true_iff in Hp. exact Hp.
  - destruct (summary intel); simpl; intros H; try discriminate H; reflexivity.
Qed.

Lemma pulseParagraphs_shape_witness :
  exists ps,
    pulseParagraphs
      {| summary := VString (String "a" (String newline (String " " (String newline "b"))));
         sources := [] |} = Normal ps
    /\ List.length ps <= 6.
Proof.
  eexists. split; [reflexivity|].
  apply (proj1 (pulseParagraphs_shape
                  {| summary := VString (String "a" (String newline
                                   (String " " (String newline "b"))));
                     sources := [] |}) _ eq_refl).
Defined.

Section Extension.

Lemma split_not_nil (sep : ascii) (s : string) : split sep s <> [].
Proof.
  induction s as [|c s IH]; simpl; [discriminate|].
  destruct (c =? sep)%char; [discriminate|].
  destruct (split sep s); [contradiction IH; reflexivity | discriminate].
Qed.

Lemma split_noDot (e : string) : noDot e = true -> split dot e = [e].
Proof.
  induction e as [|c e IH]; simpl; intros H; [reflexivity|].
  apply andb_true_iff in H. destruct H as [Hc He].
  apply negb_true_iff in Hc. rewrite Hc, (IH He). reflexivity.
Qed.

Lemma split_app_dot (base ext : string) :
  split dot (base ++ String dot ext) = (split dot base ++ split dot ext)%list.
Proof.
  induction base as [|c base IH]; simpl.
  - reflexivity.
  - destruct (c =? dot)%char; [rewrite IH; reflexivity|].
    rewrite IH.
    pose proof (split_not_nil dot base) as Hne.
    destruct (split dot base); [contradiction Hne; reflexivity | reflexivity].
Qed.

Lemma split_segments_noDot (s : string) :
  Forall (fun seg => noDot seg = true) (split dot s).
Proof.
  induction s as [|c s IH]; simpl; [repeat constructor|].
  destruct (c =? dot)%char eqn:Hc; [constructor; [reflexivity | exact IH]|].
  destruct (split dot s) as [|seg rest]; [repeat constructor; simpl; rewrite Hc; reflexivity|].
  inversion IH as [|? ? Hseg Hrest]. subst.
  constructor; [simpl; rewrite Hc; exact Hseg | exact Hrest].
Qed.

(** splitting at the dots and joining with dots gives the name back *)
Lemma join_split (s : string) :
  join (String dot EmptyString) (split dot s) = s.
Proof.
  induction s as [|c s IH]; [reflexivity|].
  pose proof (split_not_nil dot s) as Hne.
  simpl split. destruct (c =? dot)%char eqn:Hc.
  - apply Ascii.eqb_eq in Hc. subst c.
    destruct (split dot s) as [|seg rest]; [contradiction Hne; reflexivity|].
    change (join (String dot EmptyString) (EmptyString :: seg :: rest))
      with (String dot (join (String dot EmptyString) (seg :: rest))).
    rewrite IH. reflexivity.
  - destruct (split dot s) as [|seg rest]; [contradiction Hne; reflexivity|].
    rewrite <- IH. destruct rest; reflexivity.
Qed.

Lemma join_last (l : list string) :
  l <> [] ->
  join (String dot EmptyString) l = last l EmptyString
  \/ exists base,
       join (String dot EmptyString) l = base ++ String dot (last l EmptyString).
Proof.
  induction l as [|x l IH]; intros Hne; [contradiction Hne; reflexivity|].
  destruct l as [|y l]; [left; reflexivity|]. right.
  change (join (String dot EmptyString) (x :: y :: l))
    with (x ++ String dot (join (String dot EmptyString) (y :: l))).
  change (last (x :: y :: l) EmptyString) with (last (y :: l) EmptyString).
  destruct (IH ltac:(discriminate)) as [-> | (base & ->)].
  - exists x. reflexivity.
  - exists (x ++ String dot base). rewrite append_assoc. reflexivity.
Qed.

Lemma last_split_after_dot (s : string) :
  afterLastDot s (last (split dot s) EmptyString).
Proof.
  pose proof (split_not_nil dot s) as Hne.
  split.
  - pose proof (split_segments_noDot s) as Hall.
    rewrite Forall_forall in Hall. apply Hall.
    destruct (split dot s) as [|x l]; [contradiction Hne; reflexivity|].
    rewrite (app_removelast_last EmptyString (l := x :: l)) at 2 by discriminate.
    apply in_or_app. right. left. reflexivity.
  - destruct (join_last (split dot s) Hne) as [H | (base & H)];
      rewrite join_split in H; [left | right; exists base]; exact H.
Qed.

Lemma last_split_unique (s ext : string) :
  afterLastDot s ext -> last (split dot s) EmptyString = ext.
Proof.
  intros (Hnd & [-> | (base & ->)]).
  - rewrite (split_noDot _ Hnd). reflexivity.
  - rewrite split_app_dot, (split_noDot _ Hnd). apply last_last.
Qed.

End Extension.

(** X15.  [processFile] sends a file to the Word converter exactly when the
    text after the last dot of its name, or the whole name when it has no
    dot, is "docx" in any letter case; every other file is read as text. *)
Theorem isDocx_extension (fileName : string) :
  isDocx fileName = true
  <-> exists ext, afterLastDot fileName ext /\ toLowerCase ext = "docx".
Proof.
  unfold isDocx, extensionOf. rewrite String.eqb_eq. split.
  - intros H. exists (last (split dot fileName) EmptyString).
    split; [apply last_split_after_dot | exact H].
  - intros (ext & Ha & He). rewrite (last_split_unique _ _ Ha). exact He.
Qed.

(* ================================================================== *)
(** * Further properties of the covenant filter and the slack calculator *)

(** X3.  For a result of [analyzeLoanDocument], [financialCovenants] throws
    exactly when some clause of the payload has no string [clause_name]: the
    normaliser accepts such a payload and the report then fails. *)
Theorem financialCovenants_after_normalize
    (data : value) (text : string) (result : AnalysisResult) :
  analyzeLoanDocument (Normal data) text = Resolved result ->
  ((exists e, financialCovenants result = Throw e)
   <-> exists raw,
         field data "clauses" = VArray raw
         /\ Exists (fun c => isString (field c "clause_name") = false) raw).
Proof.
  intros Hres. apply analyze_resolved_inv in Hres.
  destruct (normalize_inv _ _ _ Hres) as (raw & cas & Hcl & _ & Hall & _ & ->).
  unfold financialCovenants. simpl.
  assert (Hiff : Exists (fun c => ~ hasStringName c) cas
                 <-> Exists (fun c => isString (field c "clause_name") = false) raw).
  { clear Hres Hcl. induction Hall as [|c ca raw cas Hc _ IH].
    - split; intros H; inversion H.
    - assert (Hname : name ca = field c "clause_name")
        by (destruct c; simpl in Hc; try discriminate Hc;
            injection Hc as <-; reflexivity).
      assert (Hone : ~ hasStringName ca
                     <-> isString (field c "clause_name") = false).
      { unfold hasStringName. rewrite Hname.
        destruct (field c "clause_name"); simpl; split; intros H;
          try reflexivity; try discriminate H;
          try (intros (s & Hs); discriminate Hs).
        contradiction H. eexists. reflexivity. }
      split; intros H; inversion H; subst;
        try (apply Exists_cons_hd; apply Hone; assumption);
        apply Exists_cons_tl; apply IH; assumption. }
  split.
  - intros (e & He). exists raw. split; [exact Hcl|]. apply Hiff.
    destruct (Forall_Exists_dec hasStringName) with (l := cas) as [Hf | Hex].
    + intros c. unfold hasStringName.
      destruct (name c); try (right; intros (s & Hs); discriminate Hs).
      left. eexists. reflexivity.
    + destruct (proj1 (filterM_isCovenantName _) Hf) as (keep & Hk & _).
      rewrite Hk in He. discriminate He.
    + exact Hex.
  - intros (raw' & Hcl' & Hex). rewrite Hcl in Hcl'. injection Hcl' as <-.
    exists TypeError. apply (proj2 (filterM_isCovenantName _)).
    apply Hiff. exact Hex.
Qed.

(* ================================================================== *)
(** * Text that starts with a numeric literal *)

Section NumericStart.








End NumericStart.


(** X18.  The normaliser accepts a payload without [overview], and the
    report then cannot render: for a result of [analyzeLoanDocument] the
    overview grid throws a TypeError exactly when the payload has no
    [overview] or a [null] one; otherwise its six cells hold the six fields
    of the supplied overview, read as they are. *)
Theorem overviewGrid_after_normalize
    (data : value) (text : string) (result : AnalysisResult) :
  analyzeLoanDocument (Normal data) text = Resolved result ->
  (overviewGrid result = Throw TypeError
   <-> isNullish (field data "overview") = true)
  /\ (isNullish (field data "overview") = false ->
      overviewGrid result
      = Normal (map (fun cell => (fst cell,
                                  field (field data "overview") (snd cell)))
                    overviewCells)).
Proof.
  intros Hres. apply analyze_resolved_inv in Hres.
  destruct (normalize_inv _ _ _ Hres) as (raw & cas & _ & _ & _ & _ & ->).
  unfold overviewGrid. cbn [overview].
  destruct (field data "overview") as [ | | b | n | s | items | props];
    cbn; split; try split; intros H; try reflexivity; try discriminate H.
Qed.

(* ================================================================== *)
(** * The further properties on sample data *)

Lemma financialCovenants_selection_witness :
  exists keep,
    financialCovenants Samples2.audit
    = Normal (filter keep (confidenceAnalysis Samples2.audit)).
Proof.
  destruct (financialCovenants_selection Samples2.audit) as (keep & H & _).
  - repeat constructor; eexists; reflexivity.
  - exists keep. exact H.
Defined.

Lemma financialCovenants_failure_witness :
  exists e, financialCovenants Samples2.unnamed = Throw e.
Proof.
  apply (proj2 (financialCovenants_failure Samples2.unnamed)).
  apply Exists_cons_tl. apply Exists_cons_hd.
  intros (s & Hs). discriminate Hs.
Defined.

Lemma financialCovenants_after_normalize_witness :
  exists result,
    analyzeLoanDocument (Normal Samples2.payloadUnnamedClause) Samples.document
    = Resolved result
    /\ exists e, financialCovenants result = Throw e.
Proof.
  eexists. split; [reflexivity|].
  apply (proj2 (financialCovenants_after_normalize
                  Samples2.payloadUnnamedClause Samples.document _ eq_refl)).
  eexists. split; [reflexivity|]. apply Exists_cons_hd. reflexivity.
Defined.

Lemma score_colours_agree_witness :
  colourOf (readinessRingColor NaN) = Some rose.
Proof.
  apply (proj2 (proj2 (proj2 (score_colours_agree NaN)))). reflexivity.
Defined.

Lemma csv_round_trip_witness :
  match csvContent Samples2.scoreText Samples2.audit with
  | Normal content =>
      exists table, Rfc4180.parse content = Some (headers :: table)
                    /\ List.length table = 4
  | Throw _ => False
  end.
Proof.
  destruct (csvContent Samples2.scoreText Samples2.audit) as [content|e] eqn:E.
  - destruct (csv_round_trip Samples2.scoreText Samples2.audit content)
      as (table & Hparse & Hrows).
    + intros clause t Hin Ht.
      repeat (destruct Hin as [<- | Hin];
              [vm_compute in Ht; injection Ht as <-; reflexivity|]).
      contradiction Hin.
    + exact E.
    + exists table. split; [exact Hparse|].
      apply Forall2_length in Hrows. rewrite <- Hrows. reflexivity.
  - vm_compute in E. discriminate E.
Defined.

Lemma csvContent_defined_witness :
  ~ exists content, csvContent Samples2.scoreText Samples2.unnamed = Normal content.
Proof.
  intros H.
  apply (proj1 (csvContent_defined Samples2.scoreText Samples2.unnamed)) in H.
  inversion H as [|? ? _ Hrest]. subst.
  inversion Hrest as [|? ? (Hname & _) _]. subst.
  discriminate Hname.
Defined.

Lemma sourcesOf_outcome_witness :
  sourcesOf (VArray [VObject [("web", VObject [("uri", VString "https://lma.eu.com")])];
                     VNull])
  = Throw TypeError.
Proof.
  apply (proj2 (proj1 (sourcesOf_outcome _))).
  right. eexists. split; reflexivity.
Defined.

Lemma handleFetchNews_outcome_witness :
  newsData (handleFetchNews Samples2.scoreText Samples2.audit
              (Normal (VObject [("text", VString "Margins tightened.")]))
              Samples2.fetching)
  = Some {| summary := VString "Margins tightened."; sources := [] |}
  /\ newsData (handleFetchNews Samples2.scoreText Samples2.audit
                 (Normal (VObject [("text", VString "Margins tightened.");
                                   ("candidates",
                                    VArray [VObject [("groundingMetadata",
                                      VObject [("groundingChunks",
                                                VArray [VNull])])]])]))
                 Samples2.fetching)
     = None
  /\ isFetchingNews (handleFetchNews Samples2.scoreText Samples2.audit
                       (Throw (Error "offline")) Samples2.fetching)
     = false.
Proof.
  split; [|split].
  - destruct (handleFetchNews_outcome Samples2.scoreText Samples2.audit
                (Normal (VObject [("text", VString "Margins tightened.")]))
                Samples2.fetching eq_refl) as (_ & _ & _ & H).
    destruct (H _ (VArray []) eq_refl eq_refl eq_refl) as [_ Hok].
    apply (Hok "Term Loan" [] eq_refl eq_refl).
  - destruct (handleFetchNews_outcome Samples2.scoreText Samples2.audit
                (Normal (VObject [("text", VString "Margins tightened.");
                                  ("candidates",
                                   VArray [VObject [("groundingMetadata",
                                     VObject [("groundingChunks",
                                               VArray [VNull])])]])]))
                Samples2.fetching eq_refl) as (_ & _ & _ & H).
    destruct (H _ (VArray [VNull]) eq_refl eq_refl eq_refl) as [Hfail _].
    apply (Hfail TypeError eq_refl).
  - apply (handleFetchNews_outcome Samples2.scoreText Samples2.audit
             (Throw (Error "offline")) Samples2.fetching eq_refl).
Defined.

Lemma isDocx_extension_witness :
  isDocx "Facility.Agreement.DOCX" = true /\ isDocx "agreement.docx.pdf" = false.
Proof.
  split.
  - apply (proj2 (isDocx_extension "Facility.Agreement.DOCX")).
    exists "DOCX". split; [|reflexivity].
    split; [reflexivity|]. right. exists "Facility.Agreement". reflexivity.
  - destruct (isDocx "agreement.docx.pdf") eqn:E; [|reflexivity].
    apply (proj1 (isDocx_extension "agreement.docx.pdf")) in E.
    destruct E as (ext & Ha & He).
    rewrite <- (last_split_unique _ _ Ha) in He. discriminate He.
Defined.


Lemma overviewGrid_after_normalize_witness :
  exists result,
    analyzeLoanDocument (Normal Samples2.payloadWithoutOverview) Samples.document
    = Resolved result
    /\ overviewGrid result = Throw TypeError.
Proof.
  eexists. split; [reflexivity|].
  apply (proj2 (proj1 (overviewGrid_after_normalize
                         Samples2.payloadWithoutOverview Samples.document _
                         eq_refl))).
  reflexivity.
Defined.

(* ================================================================== *)
(** * Subtraction and the order of numbers

    [x - y >= 0] is [y <= x] on the numbers [parseFloat] returns, two equal
    infinities apart.  The comparison of the library reads exponents before
    mantissas, which is the order of the values only for mantissas in
    canonical form; [parseFloat] returns no other. *)

Section Canonical.

Local Open Scope Z_scope.

Lemma canonical_mantissa_bounds (m : positive) (e : Z) :
  canonical_mantissa prec emax m e = true ->
  -1074 <= e /\ Z.pos (digits2_pos m) <= 53
  /\ (e = -1074 \/ Z.pos (digits2_pos m) = 53).
Proof.
  unfold canonical_mantissa, fexp, emin, prec, emax. intros H.
  apply Z.eqb_eq in H. lia.
Qed.

Lemma pow2_pos (k : Z) : 0 <= k -> 0 < 2 ^ k.
Proof. intros H. apply Z.pow_pos_nonneg; lia. Qed.

Lemma pow2_split (a b : Z) : 0 <= a -> 0 <= b -> 2 ^ (a + b) = 2 ^ a * 2 ^ b.
Proof. intros. apply Z.pow_add_r; assumption. Qed.

(** on canonical mantissas, exponent first and mantissa second is the order
    of the values *)
Lemma compare_canonical (m1 m2 : positive) (e1 e2 ez : Z) :
  canonical_mantissa prec emax m1 e1 = true ->
  canonical_mantissa prec emax m2 e2 = true ->
  ez <= e1 -> ez <= e2 ->
  match e1 ?= e2 with
  | Lt => Lt
  | Gt => Gt
  | Eq => Pos.compare_cont Eq m1 m2
  end
  = (Z.pos m1 * 2 ^ (e1 - ez) ?= Z.pos m2 * 2 ^ (e2 - ez)).
Proof.
  intros C1 C2 H1 H2.
  destruct (canonical_mantissa_bounds m1 e1 C1) as (L1 & D1 & N1).
  destruct (canonical_mantissa_bounds m2 e2 C2) as (L2 & D2 & N2).
  pose proof (digits2_pos_gt m1) as G1. pose proof (digits2_pos_le m1) as B1.
  pose proof (digits2_pos_gt m2) as G2. pose proof (digits2_pos_le m2) as B2.
  assert (P53 : forall d, Z.pos d <= 53 -> 2 ^ Z.pos d <= 2 ^ 53)
    by (intros d Hd; apply Z.pow_le_mono_r; lia).
  change (2 ^ 53) with 9007199254740992 in P53.
  destruct (Z.compare_spec e1 e2) as [Heq | Hlt | Hgt].
  - subst e2. change (Pos.compare_cont Eq m1 m2) with (Z.pos m1 ?= Z.pos m2).
    apply Zmult_compare_compat_r. apply Z.lt_gt. apply pow2_pos. lia.
  - symmetry. apply Z.compare_lt_iff.
    assert (Hd2 : Z.pos (digits2_pos m2) = 53) by lia.
    rewrite Hd2 in B2. change (2 ^ 53) with 9007199254740992 in B2.
    replace (e2 - ez) with ((e2 - e1 - 1) + 1 + (e1 - ez)) by lia.
    rewrite !pow2_split by lia.
    pose proof (pow2_pos (e1 - ez) ltac:(lia)) as HK.
    pose proof (pow2_pos (e2 - e1 - 1) ltac:(lia)) as HK'.
    pose proof (P53 _ D1) as Q1. change (2 ^ 1) with 2.
    set (K := 2 ^ (e1 - ez)) in *. set (K' := 2 ^ (e2 - e1 - 1)) in *.
    assert (S1 : Z.pos m1 * K < 9007199254740992 * K)
      by (apply Z.mul_lt_mono_pos_r; lia).
    assert (S2 : 9007199254740992 * K <= (2 * Z.pos m2) * K)
      by (apply Z.mul_le_mono_nonneg_r; lia).
    assert (S3 : 0 < Z.pos m2 * K) by (apply Z.mul_pos_pos; lia).
    nia.
  - symmetry. apply Z.compare_gt_iff.
    assert (Hd1 : Z.pos (digits2_pos m1) = 53) by lia.
    rewrite Hd1 in B1. change (2 ^ 53) with 9007199254740992 in B1.
    replace (e1 - ez) with ((e1 - e2 - 1) + 1 + (e2 - ez)) by lia.
    rewrite !pow2_split by lia.
    pose proof (pow2_pos (e2 - ez) ltac:(lia)) as HK.
    pose proof (pow2_pos (e1 - e2 - 1) ltac:(lia)) as HK'.
    pose proof (P53 _ D2) as Q2. change (2 ^ 1) with 2.
    set (K := 2 ^ (e2 - ez)) in *. set (K' := 2 ^ (e1 - e2 - 1)) in *.
    assert (S1 : Z.pos m2 * K < 9007199254740992 * K)
      by (apply Z.mul_lt_mono_pos_r; lia).
    assert (S2 : 9007199254740992 * K <= (2 * Z.pos m1) * K)
      by (apply Z.mul_le_mono_nonneg_r; lia).
    assert (S3 : 0 < Z.pos m1 * K) by (apply Z.mul_pos_pos; lia).
    nia.
Qed.

Lemma shl_align_value (m : positive) (e ez : Z) :
  ez <= e -> Z.pos (fst (shl_align m e ez)) = Z.pos m * 2 ^ (e - ez).
Proof.
  intros H. unfold shl_align.
  destruct (ez - e) as [|k|k] eqn:Hk; simpl; try lia.
  - replace (e - ez) with 0 by lia. rewrite Z.pow_0_r. lia.
  - destruct (iter_xO_value m k) as [-> _].
    replace (e - ez) with (Z.pos k) by lia. reflexivity.
Qed.

Lemma shr_fexp_pos_emin (m e : Z) (l : location) :
  0 < m -> -1074 <= e ->
  0 < shr_m (fst (shr_fexp prec emax m e l)).
Proof.
  intros Hm He. unfold shr_fexp, shr.
  destruct (Zdigits2_pos_bounds m Hm) as [Hd Hle].
  destruct (fexp prec emax (Zdigits2 m + e) - e) as [|k|k] eqn:Hk; simpl;
    try (rewrite shr_record_of_loc_m; lia).
  rewrite iter_shr_1_div by (rewrite shr_record_of_loc_m; lia).
  rewrite shr_record_of_loc_m.
  apply Z.div_str_pos. split; [apply Z.pow_pos_nonneg; lia|].
  unfold fexp, emin, prec, emax in Hk.
  assert (Hkd : Z.pos k = Zdigits2 m - 53) by lia.
  assert (2 ^ Z.pos k * 2 ^ 53 = 2 ^ Zdigits2 m).
  { rewrite <- Z.pow_add_r by lia. f_equal. lia. }
  assert (0 < 2 ^ Z.pos k) by (apply Z.pow_pos_nonneg; lia).
  change (2 ^ 53) with 9007199254740992 in *. nia.
Qed.

(** a non-zero integer at an exponent of the format rounds to a finite
    number or to an infinity, of the sign given *)
Lemma binary_round_aux_signed (s : bool) (m e : Z) (l : location) :
  0 < m -> -1074 <= e ->
  binary_round_aux prec emax s m e l = S754_infinity s
  \/ exists m' e', binary_round_aux prec emax s m e l = S754_finite s m' e'.
Proof.
  intros Hm He. unfold binary_round_aux.
  pose proof (shr_fexp_pos_emin m e l Hm He) as H1.
  pose proof (shr_fexp_snd m e l) as H1s.
  destruct (shr_fexp prec emax m e l) as [mrs' e']. simpl in H1, H1s.
  pose proof (round_nearest_even_ge (shr_m mrs') (loc_of_shr_record mrs')) as Hr.
  pose proof (shr_fexp_pos_emin
                (round_nearest_even (shr_m mrs') (loc_of_shr_record mrs'))
                e' loc_Exact ltac:(lia) ltac:(lia)) as H2.
  destruct (shr_fexp prec emax
              (round_nearest_even (shr_m mrs') (loc_of_shr_record mrs'))
              e' loc_Exact) as [mrs'' e'']. simpl in H2.
  destruct (shr_m mrs'') as [|q|q]; try lia.
  destruct (e'' <=? _); [right; eexists; eexists; reflexivity | left; reflexivity].
Qed.

Lemma binary_round_signed (s : bool) (p : positive) (e : Z) :
  -1074 <= e ->
  binary_round prec emax s p e = S754_infinity s
  \/ exists m' e', binary_round prec emax s p e = S754_finite s m' e'.
Proof.
  intros He. unfold binary_round.
  assert (Hf : -1074 <= fexp prec emax (Z.pos (digits2_pos p) + e))
    by (unfold fexp, emin, prec, emax; lia).
  unfold shl_align.
  destruct (fexp prec emax (Z.pos (digits2_pos p) + e) - e) as [|k|k] eqn:Hk;
    apply binary_round_aux_signed; lia.
Qed.

(** the sign of a rounded integer decides [>= 0] *)
Lemma ge_zero_binary_normalize (d e : Z) :
  -1074 <= e ->
  SFleb (S754_zero false) (binary_normalize prec emax d e false) = (0 <=? d).
Proof.
  intros He. destruct d as [|p|p]; simpl; [reflexivity | |].
  - destruct (binary_round_signed false p e He) as [-> | (m & e' & ->)];
      reflexivity.
  - destruct (binary_round_signed true p e He) as [-> | (m & e' & ->)];
      reflexivity.
Qed.

(** [x - y >= 0] is [y <= x], two equal infinities apart *)
Lemma sub_nonneg_iff_le (x y : number) :
  canonical x = true -> canonical y = true ->
  isNaN x = false -> isNaN y = false ->
  (x = y -> isInfinite x = false) ->
  ge (sub x y) (of_Z 0) = SFleb y x.
Proof.
  unfold ge, sub. change (of_Z 0) with (S754_zero false).
  intros Cx Cy Nx Ny Hinf.
  destruct x as [sx | sx | | sx mx ex], y as [sy | sy | | sy my ey];
    try discriminate Nx; try discriminate Ny;
    try (destruct sx, sy; reflexivity);
    try (destruct sx; reflexivity); try (destruct sy; reflexivity).
  - destruct sx, sy; try reflexivity;
      specialize (Hinf eq_refl); discriminate Hinf.
  - simpl in Cx, Cy.
    destruct (canonical_mantissa_bounds mx ex Cx) as (Lx & _).
    destruct (canonical_mantissa_bounds my ey Cy) as (Ly & _).
    unfold SFsub. set (ez := Z.min ex ey).
    assert (Hzx : ez <= ex) by (unfold ez; lia).
    assert (Hzy : ez <= ey) by (unfold ez; lia).
    rewrite ge_zero_binary_normalize by (unfold ez; lia).
    rewrite !shl_align_value by assumption.
    pose proof (compare_canonical my mx ey ex ez Cy Cx Hzy Hzx) as Hc.
    pose proof (pow2_pos (ex - ez) ltac:(lia)) as Kx.
    pose proof (pow2_pos (ey - ez) ltac:(lia)) as Ky.
    set (X := Z.pos mx * 2 ^ (ex - ez)) in *.
    set (Y := Z.pos my * 2 ^ (ey - ez)) in *.
    assert (HX : 0 < X) by (unfold X; apply Z.mul_pos_pos; lia).
    assert (HY : 0 < Y) by (unfold Y; apply Z.mul_pos_pos; lia).
    unfold SFleb, SFcompare.
    destruct sx, sy; simpl cond_Zopp.
    + (* both negative *)
      replace (match ey ?= ex with
               | Eq => CompOpp (Pos.compare_cont Eq my mx)
               | Lt => Gt
               | Gt => Lt
               end)
        with (CompOpp (Y ?= X))
        by (rewrite <- Hc; destruct (ey ?= ex); reflexivity).
      destruct (Z.compare_spec Y X); simpl;
        [apply Z.leb_le | apply Z.leb_gt | apply Z.leb_le]; lia.
    + apply Z.leb_gt. lia.
    + apply Z.leb_le. lia.
    + rewrite Hc.
      destruct (Z.compare_spec Y X); simpl;
        [apply Z.leb_le | apply Z.leb_le | apply Z.leb_gt]; lia.
Qed.

End Canonical.

Section CanonicalResults.

Local Open Scope Z_scope.

Lemma Zdigits2_nonneg (m : Z) : 0 <= Zdigits2 m.
Proof. destruct m; simpl; lia. Qed.

Lemma Zdigits2_bounds (m : Z) :
  0 < m -> 2 ^ Zdigits2 m <= 2 * m /\ m < 2 ^ Zdigits2 m /\ 0 < Zdigits2 m.
Proof.
  destruct m as [|p|p]; intros H; try lia. simpl.
  split; [apply digits2_pos_le|]. split; [apply digits2_pos_gt | lia].
Qed.

Lemma Zdigits2_unique (x k : Z) :
  0 < x -> 2 ^ k <= 2 * x -> x < 2 ^ k -> Zdigits2 x = k.
Proof.
  intros Hx Hlo Hhi.
  destruct (Zdigits2_bounds x Hx) as (Blo & Bhi & Bpos).
  assert (Hk : 0 < k).
  { destruct (Z_lt_le_dec 0 k) as [|Hk]; [assumption|]. exfalso.
    destruct (Z.eq_dec k 0) as [-> | Hne].
    - rewrite Z.pow_0_r in Hhi. lia.
    - rewrite Z.pow_neg_r in Hhi by lia. lia. }
  destruct (Z.lt_trichotomy (Zdigits2 x) k) as [Hlt | [Heq | Hgt]];
    [|exact Heq|].
  - assert (2 * 2 ^ Zdigits2 x <= 2 ^ k).
    { rewrite <- Z.pow_succ_r by lia. apply Z.pow_le_mono_r; lia. }
    lia.
  - assert (2 * 2 ^ k <= 2 ^ Zdigits2 x).
    { rewrite <- Z.pow_succ_r by lia. apply Z.pow_le_mono_r; lia. }
    lia.
Qed.

Lemma Zdigits2_mono (a b : Z) : 0 < a -> a <= b -> Zdigits2 a <= Zdigits2 b.
Proof.
  intros Ha Hab.
  destruct (Zdigits2_bounds a Ha) as (Alo & Ahi & Apos).
  destruct (Zdigits2_bounds b ltac:(lia)) as (Blo & Bhi & Bpos).
  destruct (Z_le_gt_dec (Zdigits2 a) (Zdigits2 b)) as [|Hgt]; [assumption|].
  assert (2 * 2 ^ Zdigits2 b <= 2 ^ Zdigits2 a).
  { rewrite <- Z.pow_succ_r by lia. apply Z.pow_le_mono_r; lia. }
  lia.
Qed.

Lemma Zdigits2_div_pow2 (m k : Z) :
  0 < m -> 0 < k -> 0 < m / 2 ^ k ->
  Zdigits2 (m / 2 ^ k) = Zdigits2 m - k.
Proof.
  intros Hm Hk Hq.
  destruct (Zdigits2_bounds m Hm) as (Mlo & Mhi & Mpos).
  assert (HK : 0 < 2 ^ k) by (apply Z.pow_pos_nonneg; lia).
  assert (Hmk : 2 ^ k <= m).
  { destruct (Z_le_gt_dec (2 ^ k) m) as [|Hgt]; [assumption|].
    rewrite Z.div_small in Hq by lia. lia. }
  assert (Hdk : k < Zdigits2 m).
  { destruct (Z_lt_le_dec k (Zdigits2 m)) as [|Hle]; [assumption|].
    assert (2 ^ Zdigits2 m <= 2 ^ k) by (apply Z.pow_le_mono_r; lia). lia. }
  assert (Hsplit : 2 ^ Zdigits2 m = 2 ^ k * 2 ^ (Zdigits2 m - k)).
  { rewrite <- Z.pow_add_r by lia. f_equal. lia. }
  apply Zdigits2_unique; [exact Hq | |].
  - (* 2^(d-k) <= 2 * (m / 2^k) *)
    pose proof (Z.div_mod m (2 ^ k) ltac:(lia)) as Hdm.
    pose proof (Z.mod_pos_bound m (2 ^ k) HK) as Hmod.
    assert (Hd1 : 2 ^ (Zdigits2 m - k) = 2 * 2 ^ (Zdigits2 m - k - 1)).
    { rewrite <- Z.pow_succ_r by lia. f_equal. lia. }
    assert (Hlow : 2 ^ (Zdigits2 m - k - 1) <= m / 2 ^ k).
    { apply Z.div_le_lower_bound; [exact HK|].
      rewrite Hsplit, Hd1 in Mlo. nia. }
    lia.
  - apply Z.div_lt_upper_bound; [exact HK|]. rewrite <- Hsplit. exact Mhi.
Qed.

(** one alignment step ends at the exponent of the format and keeps the
    position of the leading bit *)
Lemma shr_fexp_aligned (m e : Z) (l : location) :
  0 <= m -> e <= fexp prec emax (Zdigits2 m + e) ->
  snd (shr_fexp prec emax m e l) = fexp prec emax (Zdigits2 m + e)
  /\ (0 < shr_m (fst (shr_fexp prec emax m e l)) ->
      Zdigits2 (shr_m (fst (shr_fexp prec emax m e l)))
      + snd (shr_fexp prec emax m e l) = Zdigits2 m + e)
  /\ (shr_m (fst (shr_fexp prec emax m e l)) = 0 ->
      snd (shr_fexp prec emax m e l) = -1074)
  /\ 0 <= shr_m (fst (shr_fexp prec emax m e l)).
Proof.
  intros Hm He.
  pose proof (Zdigits2_nonneg m) as Hd.
  unfold shr_fexp, shr.
  destruct (fexp prec emax (Zdigits2 m + e) - e) as [|k|k] eqn:Hk; simpl;
    try lia.
  - rewrite shr_record_of_loc_m.
    split; [lia|]. split; [lia|]. split; [|exact Hm].
    intros ->. simpl in *. unfold fexp, emin, prec, emax in *. lia.
  - rewrite iter_shr_1_div by (rewrite shr_record_of_loc_m; exact Hm).
    rewrite shr_record_of_loc_m.
    assert (HK : 0 < 2 ^ Z.pos k) by (apply Z.pow_pos_nonneg; lia).
    split; [lia|]. split; [|split].
    + intros Hq.
      assert (Hmpos : 0 < m).
      { destruct (Z.eq_dec m 0) as [-> | ]; [rewrite Z.div_0_l in Hq; lia | lia]. }
      rewrite (Zdigits2_div_pow2 m (Z.pos k) Hmpos ltac:(lia) Hq). lia.
    + intros Hq.
      destruct (Z.eq_dec m 0) as [-> | Hne].
      * simpl in *. unfold fexp, emin, prec, emax in *. lia.
      * assert (Hmpos : 0 < m) by lia.
        destruct (Zdigits2_bounds m Hmpos) as (Mlo & Mhi & Mpos).
        assert (Hsmall : m < 2 ^ Z.pos k).
        { destruct (Z_lt_le_dec m (2 ^ Z.pos k)) as [|Hge]; [assumption|].
          assert (1 <= m / 2 ^ Z.pos k)
            by (apply Z.div_le_lower_bound; lia).
          lia. }
        assert (Hdk : Zdigits2 m <= Z.pos k).
        { destruct (Z_le_gt_dec (Zdigits2 m) (Z.pos k)) as [|Hgt]; [assumption|].
          assert (2 * 2 ^ Z.pos k <= 2 ^ Zdigits2 m).
          { rewrite <- Z.pow_succ_r by lia. apply Z.pow_le_mono_r; lia. }
          lia. }
        unfold fexp, emin, prec, emax in *. lia.
    + apply Z.div_pos; lia.
Qed.

Lemma binary_round_aux_canonical (s : bool) (m e : Z) (l : location) :
  0 <= m -> e <= fexp prec emax (Zdigits2 m + e) ->
  canonical (binary_round_aux prec emax s m e l) = true.
Proof.
  intros Hm He. unfold binary_round_aux.
  destruct (shr_fexp_aligned m e l Hm He) as (E1 & D1 & Z1 & P1).
  destruct (shr_fexp prec emax m e l) as [mrs' e']. simpl in E1, D1, Z1, P1.
  set (m2 := round_nearest_even (shr_m mrs') (loc_of_shr_record mrs')).
  pose proof (round_nearest_even_ge (shr_m mrs') (loc_of_shr_record mrs')) as Hr.
  fold m2 in Hr.
  assert (Hm2 : 0 <= m2) by lia.
  assert (He' : e' <= fexp prec emax (Zdigits2 m2 + e')).
  { destruct (Z.eq_dec (shr_m mrs') 0) as [H0 | Hne].
    - rewrite (Z1 H0). unfold fexp, emin, prec, emax. lia.
    - assert (Hpos : 0 < shr_m mrs') by lia.
      pose proof (Zdigits2_mono _ _ Hpos Hr) as Hmono.
      specialize (D1 Hpos). rewrite E1.
      unfold fexp, emin, prec, emax in *. lia. }
  destruct (shr_fexp_aligned m2 e' loc_Exact Hm2 He') as (E2 & D2 & _ & P2).
  destruct (shr_fexp prec emax m2 e' loc_Exact) as [mrs'' e''].
  simpl in E2, D2, P2.
  destruct (shr_m mrs'') as [|q|q] eqn:Hq; [reflexivity | | lia].
  destruct (e'' <=? _); [|reflexivity].
  unfold canonical, canonical_mantissa. apply Z.eqb_eq.
  specialize (D2 ltac:(lia)).
  change (Zdigits2 (Z.pos q)) with (Z.pos (digits2_pos q)) in D2.
  rewrite D2, <- E2. reflexivity.
Qed.

Lemma binary_round_canonical (s : bool) (p : positive) (e : Z) :
  canonical (binary_round prec emax s p e) = true.
Proof.
  unfold binary_round, shl_align.
  destruct (fexp prec emax (Z.pos (digits2_pos p) + e) - e) as [|k|k] eqn:Hk;
    apply binary_round_aux_canonical; try lia; simpl Zdigits2; try lia.
  destruct (iter_xO_value p k) as [_ ->].
  rewrite Pos2Z.inj_add.
  replace (Z.pos (digits2_pos p) + Z.pos k
           + fexp prec emax (Z.pos (digits2_pos p) + e))
    with (Z.pos (digits2_pos p) + e) by lia.
  lia.
Qed.

Lemma div_integers_canonical (s : bool) (p d : positive) :
  canonical (SFdiv prec emax (S754_finite s p 0) (S754_finite false d 0)) = true.
Proof.
  unfold SFdiv, SFdiv_core_binary.
  set (d1 := Zdigits2 (Z.pos p)). set (d2 := Zdigits2 (Z.pos d)).
  set (e' := Z.min (fexp prec emax (d1 + 0 - (d2 + 0))) (0 - 0)).
  assert (He0 : e' <= 0) by (unfold e'; lia).
  assert (Hef : e' <= fexp prec emax (d1 - d2))
    by (unfold e'; replace (d1 + 0 - (d2 + 0)) with (d1 - d2) by lia; lia).
  set (m' := match 0 - 0 - e' with
             | 0 => Z.pos p
             | Z.pos _ => Z.shiftl (Z.pos p) (0 - 0 - e')
             | Z.neg _ => 0
             end).
  assert (Hm' : m' = Z.pos p * 2 ^ (- e')).
  { unfold m'. destruct (0 - 0 - e') as [|k|k] eqn:Hk; try lia.
    - replace (- e') with 0 by lia. rewrite Z.pow_0_r. lia.
    - rewrite Z.shiftl_mul_pow2 by lia. f_equal. f_equal. lia. }
  assert (HK : 0 < 2 ^ (- e')) by (apply Z.pow_pos_nonneg; lia).
  pose proof (Z.div_pos m' (Z.pos d) ltac:(nia) ltac:(lia)) as Hq0.
  assert (Hdig : d1 - d2 - e' <= Zdigits2 (m' / Z.pos d)).
  { pose proof (Zdigits2_nonneg (m' / Z.pos d)) as Hnn.
    destruct (Z_le_gt_dec (d1 - d2 - e') 0) as [|Ht]; [lia|].
    destruct (Zdigits2_bounds (Z.pos p) ltac:(lia)) as (Plo & Phi & Ppos).
    destruct (Zdigits2_bounds (Z.pos d) ltac:(lia)) as (Dlo & Dhi & Dpos).
    fold d1 in Plo, Phi, Ppos. fold d2 in Dlo, Dhi, Dpos.
    set (t := d1 - d2 - e') in *.
    assert (Hlow : 2 ^ (t - 1) <= m' / Z.pos d).
    { apply Z.div_le_lower_bound; [lia|].
      assert (E1 : 2 ^ (t - 1) * 2 ^ d2 * 2 = 2 ^ d1 * 2 ^ (- e')).
      { rewrite <- !Z.pow_add_r by lia.
        replace (2 ^ (t - 1 + d2) * 2) with (2 ^ (Z.succ (t - 1 + d2)))
          by (rewrite Z.pow_succ_r by lia; ring).
        f_equal. unfold t. lia. }
      assert (T1 : 0 < 2 ^ (t - 1)) by (apply Z.pow_pos_nonneg; lia).
      rewrite Hm'. nia. }
    assert (Hqpos : 0 < m' / Z.pos d).
    { assert (T1 : 0 < 2 ^ (t - 1)) by (apply Z.pow_pos_nonneg; lia). lia. }
    destruct (Zdigits2_bounds _ Hqpos) as (_ & Qhi & _).
    destruct (Z_le_gt_dec t (Zdigits2 (m' / Z.pos d))) as [|Hgt]; [assumption|].
    assert (2 ^ Zdigits2 (m' / Z.pos d) <= 2 ^ (t - 1))
      by (apply Z.pow_le_mono_r; lia).
    lia. }
  unfold Z.div in Hq0, Hdig.
  clearbody m' e' d1 d2.
  destruct (Z.div_eucl m' (Z.pos d)) as [q r].
  change (fst (q, r)) with q in Hq0, Hdig.
  apply binary_round_aux_canonical; [exact Hq0|].
  unfold fexp, emin, prec, emax in *. lia.
Qed.

Lemma of_decimal_canonical (neg : bool) (m : N) (e : Z) :
  canonical (of_decimal neg m e) = true.
Proof.
  unfold of_decimal. destruct m as [|p]; [reflexivity|].
  destruct e as [|k|k].
  - apply binary_round_canonical.
  - apply binary_round_canonical.
  - apply div_integers_canonical.
Qed.

(** every number [parseFloat] returns is in canonical form *)
Lemma parseFloat_canonical (s : string) : canonical (parseFloat s) = true.
Proof.
  unfold parseFloat.
  destruct (scan (trimStart s)) as [[[neg | neg ip fp ex] r]|];
    try reflexivity.
  apply of_decimal_canonical.
Qed.

End CanonicalResults.

(** X17.  The verdict of the calculator is a comparison of the two numbers:
    for a max covenant [isSafe] holds exactly when actual <= limit, for a min
    covenant exactly when actual >= limit.  Only two equal infinities, whose
    difference is NaN, are outside the rule. *)
Theorem isSafe_iff_within_limit (limitStr actualStr name : string) (r : Slack) :
  calculateSlack limitStr actualStr name = Some r ->
  (parseFloat limitStr = parseFloat actualStr ->
   isInfinite (parseFloat limitStr) = false) ->
  isSafe r = if isMax r
             then ge (parseFloat limitStr) (parseFloat actualStr)
             else ge (parseFloat actualStr) (parseFloat limitStr).
Proof.
  intros Hr Hinf.
  destruct (isNaN (parseFloat limitStr)) eqn:Hl;
    [unfold calculateSlack in Hr; rewrite Hl in Hr; discriminate Hr|].
  destruct (isNaN (parseFloat actualStr)) eqn:Ha;
    [unfold calculateSlack in Hr; rewrite Hl, Ha in Hr; discriminate Hr|].
  rewrite (calculateSlack_parsed limitStr actualStr name Hl Ha) in Hr.
  cbv zeta in Hr. injection Hr as <-. simpl.
  pose proof (parseFloat_canonical limitStr) as Cl.
  pose proof (parseFloat_canonical actualStr) as Ca.
  destruct (includes (toLowerCase name) "leverage"
            || includes (toLowerCase name) "debt").
  - apply sub_nonneg_iff_le; assumption.
  - apply sub_nonneg_iff_le; try assumption.
    intros Heq. rewrite Heq. apply Hinf. symmetry. exact Heq.
Qed.

Lemma isSafe_iff_within_limit_witness :
  exists r,
    calculateSlack "3.5" "3.6" "Net Debt / EBITDA ratio" = Some r
    /\ isSafe r = false.
Proof.
  eexists. split; [reflexivity|].
  rewrite (isSafe_iff_within_limit "3.5" "3.6" "Net Debt / EBITDA ratio" _ eq_refl).
  - reflexivity.
  - intros _. reflexivity.
Defined.
